(** * FinancialAnalysisSystem: a shallow embedding of the notebook's class

    Source: examples/FinancialAnalysisSystem.ipynb, the code cell that defines
    [class FinancialAnalysisSystem].

    Python values are modelled as the code has them:
    - [float] is IEEE binary64, here Rocq's primitive [float];
    - [str] is a [string] holding the UTF-8 encoding of the text; [strip]
      removes the white-space characters of Unicode that [str.isspace]
      knows, [lower] changes the letters A to Z (no other character is
      lowered to a letter of "buy" or "sell");
    - a dict literal is an association list in insertion order;
    - the object's three fields, the random generator's position and the
      count of API calls are threaded as an explicit state; what a method
      prints, the spans its decorator opens and the requests it sends are
      collected as events;
    - an exception is the [Raise] outcome: it keeps the state changes and
      the events that came before it, and skips the rest.

    What lives outside the repository (the random generator, TextBlob, the
    chat-completion endpoint, the interpreter's [repr]) is a field of
    [world]. *)

From Stdlib Require Import String Ascii List NArith ZArith Bool Lia Floats.
Import ListNotations.

Local Open Scope list_scope.
Local Open Scope string_scope.

(** ** Strings *)

Definition nl : string := String (ascii_of_nat 10) EmptyString.

(** [str.lower] on the ASCII range. *)
Definition lower_char (c : ascii) : ascii :=
  let n := nat_of_ascii c in
  if (65 <=? n)%nat && (n <=? 90)%nat then ascii_of_nat (n + 32) else c.

Fixpoint lower (s : string) : string :=
  match s with
  | EmptyString => EmptyString
  | String c t => String (lower_char c) (lower t)
  end.

(** [s.startswith(p)]. *)
Fixpoint starts_with (p s : string) : bool :=
  match p with
  | EmptyString => true
  | String a p' =>
      match s with
      | EmptyString => false
      | String b s' => Ascii.eqb a b && starts_with p' s'
      end
  end.

(** [sub in s] for two strings. *)
Fixpoint contains (sub s : string) : bool :=
  if starts_with sub s then true
  else match s with
       | EmptyString => false
       | String _ t => contains sub t
       end.

(** The code points [str.strip] removes: those of which [str.isspace] holds. *)
Definition white_space_code_points : list N :=
  [9; 10; 11; 12; 13; 28; 29; 30; 31; 32; 133; 160; 5760;
   8192; 8193; 8194; 8195; 8196; 8197; 8198; 8199; 8200; 8201; 8202;
   8232; 8233; 8239; 8287; 12288]%N.

(** The UTF-8 encoding of a code point below 65536. *)
Definition utf8 (cp : N) : string :=
  if (cp <? 128)%N then String (ascii_of_N cp) EmptyString
  else if (cp <? 2048)%N then
    String (ascii_of_N (192 + cp / 64))
      (String (ascii_of_N (128 + cp mod 64)) EmptyString)
  else
    String (ascii_of_N (224 + cp / 4096))
      (String (ascii_of_N (128 + (cp / 64) mod 64))
         (String (ascii_of_N (128 + cp mod 64)) EmptyString)).

(** The white-space characters, as the bytes a text holds them in. *)
Definition white_space : list string :=
  Eval vm_compute in map utf8 white_space_code_points.

(** [c] holds the bytes of one white-space character. *)
Definition is_space (c : string) : bool := existsb (String.eqb c) white_space.

(** [s.lstrip()]: a white-space character takes one, two or three bytes. *)
Fixpoint lstrip (s : string) : string :=
  match s with
  | EmptyString => s
  | String a t1 =>
      if is_space (String a EmptyString) then lstrip t1
      else
        match t1 with
        | EmptyString => s
        | String b t2 =>
            if is_space (String a (String b EmptyString)) then lstrip t2
            else
              match t2 with
              | EmptyString => s
              | String c t3 =>
                  if is_space (String a (String b (String c EmptyString)))
                  then lstrip t3
                  else s
              end
        end
  end.

(** [s] is made of white space only. *)
Definition all_space (s : string) : bool :=
  match lstrip s with
  | EmptyString => true
  | _ => false
  end.

(** [s.rstrip()]: [s] up to the first place from which white space only
    follows. In a UTF-8 text no white-space character begins inside another
    character, so that place is the beginning of a character. *)
Fixpoint rstrip (s : string) : string :=
  match s with
  | EmptyString => EmptyString
  | String c t =>
      if all_space (String c t) then EmptyString else String c (rstrip t)
  end.

Definition strip (s : string) : string := rstrip (lstrip s).

Fixpoint join (sep : string) (l : list string) : string :=
  match l with
  | [] => EmptyString
  | [x] => x
  | x :: t => x ++ sep ++ join sep t
  end.

(** ** Numbers *)

(** [round(x, 2)] on a float: the decimal with two digits nearest to the
    exact value of [x] (ties to the even digit), then the float nearest to
    that decimal; zeros, infinities and NaN are returned as they are. *)
Definition round_half_even (num den : Z) : Z :=
  let q := (num / den)%Z in
  match (2 * (num mod den) ?= den)%Z with
  | Lt => q
  | Eq => if Z.even q then q else (q + 1)%Z
  | Gt => (q + 1)%Z
  end.

Definition hundredths (m : positive) (e : Z) : Z :=
  if (0 <=? e)%Z then (Zpos m * 100 * 2 ^ e)%Z
  else round_half_even (Zpos m * 100) (2 ^ (- e)).

Definition of_hundredths (s : bool) (n : Z) : spec_float :=
  match n with
  | Zpos p => SF64div (S754_finite s p 0) (S754_finite false 100 0)
  | _ => S754_zero s
  end.

Definition round2 (x : float) : float :=
  match Prim2SF x with
  | S754_finite s m e => SF2Prim (of_hundredths s (hundredths m e))
  | _ => x
  end.

Definition float_of_nat (n : nat) : float :=
  SF2Prim (binary_normalize prec emax (Z.of_nat n) 0 false).

(** ** Values, dicts and the object *)

Inductive atom : Type :=
  | Str (s : string)
  | Num (x : float).

Definition dict : Type := list (string * atom).

Inductive value : Type :=
  | Atom (a : atom)
  | Dict (d : dict).

(** The instance attributes set by [__init__]. *)
Record obj : Type := mk_obj {
  stock_data : value;
  news_sentiment : value;
  economic_indicators : value
}.

(** [__init__]: the three attributes start as empty dicts. *)
Definition init_obj : obj := mk_obj (Dict []) (Dict []) (Dict []).

(** ** Exceptions, requests and the outside world *)

Inductive exn : Type :=
  | SentimentError (what : string)   (* raised inside TextBlob *)
  | ApiError (what : string)         (* raised inside the openai client *)
  | KeyError (key : string)
  | IndexError
  | AttributeError
  | TypeError
  | ZeroDivisionError.

Inductive result (A : Type) : Type :=
  | Ok (a : A)
  | Raise (e : exn).
Arguments Ok {A} a.
Arguments Raise {A} e.

Record message : Type := mk_message { role : string; content : string }.

(** The keyword arguments of [openai.chat.completions.create]. *)
Record request : Type := mk_request {
  model : string;
  messages : list message;
  max_tokens : Z
}.

(** [response.choices[i].message.content], which the API may leave [None]. *)
Record response : Type := mk_response { choices : list (option string) }.

Record world : Type := mk_world {
  (* the i-th value returned by [random.random()] *)
  random : nat -> float;
  (* [TextBlob(text).sentiment.polarity] *)
  polarity : string -> result float;
  (* the n-th call of [openai.chat.completions.create] *)
  chat_create : nat -> request -> result response;
  (* [repr] of a float and of a str *)
  repr_float : float -> string;
  repr_str : string -> string
}.

(** ** The state and what a run emits *)

Record state : Type := mk_state {
  self : obj;
  draws : nat;       (* values taken from the random generator *)
  api_calls : nat    (* calls of the chat-completion endpoint *)
}.

Definition init : state := mk_state init_obj 0 0.

Inductive event : Type :=
  (* the span a tracer decorator opens when the method is entered *)
  | Enter (method : string)
  (* a call of TextBlob on [text] and what came back *)
  | Scored (text : string) (answer : result float)
  (* a call of the chat-completion endpoint and what came back *)
  | Sent (req : request) (answer : result response)
  (* one call of [print] *)
  | Print (line : string).

Record outcome (A : Type) : Type := mk_outcome {
  res : result A;
  final : state;
  out : list event
}.
Arguments mk_outcome {A} res final out.
Arguments res {A} o.
Arguments final {A} o.
Arguments out {A} o.

Definition M (A : Type) : Type := state -> outcome A.

Definition ret {A} (a : A) : M A := fun st => mk_outcome (Ok a) st [].

Definition raise {A} (e : exn) : M A := fun st => mk_outcome (Raise e) st [].

Definition bind {A B} (c : M A) (k : A -> M B) : M B :=
  fun st =>
    let o := c st in
    match res o with
    | Ok a => let o' := k a (final o) in
              mk_outcome (res o') (final o') (out o ++ out o')%list
    | Raise e => mk_outcome (Raise e) (final o) (out o)
    end.

Notation "x <- c ;; k" := (bind c (fun x => k))
  (at level 61, c at next level, right associativity).
Notation "c ;;; k" := (bind c (fun _ => k))
  (at level 61, right associativity).

Definition emit (e : event) : M unit := fun st => mk_outcome (Ok tt) st [e].

Definition get_self : M obj := fun st => mk_outcome (Ok (self st)) st [].

Definition set_self (f : obj -> obj) : M unit :=
  fun st => mk_outcome (Ok tt) (mk_state (f (self st)) (draws st) (api_calls st)) [].

(** [for x in l] collecting the results, as a list comprehension does. *)
Fixpoint mapM {A B} (f : A -> M B) (l : list A) : M (list B) :=
  match l with
  | [] => ret []
  | x :: t => y <- f x ;; ys <- mapM f t ;; ret (y :: ys)
  end.

(** ** Built-ins *)

(** [d[key]]. *)
Fixpoint lookup (key : string) (d : dict) : option atom :=
  match d with
  | [] => None
  | (k, a) :: t => if String.eqb k key then Some a else lookup key t
  end.

Definition subscript (v : value) (key : string) : M atom :=
  match v with
  | Dict d => match lookup key d with
              | Some a => ret a
              | None => raise (KeyError key)
              end
  | Atom (Str _) => raise TypeError
  | Atom (Num _) => raise TypeError
  end.

Section Runtime.

Variable w : world.

(** [str(a)], what an f-string field shows. *)
Definition str_atom (a : atom) : string :=
  match a with
  | Str s => s
  | Num x => repr_float w x
  end.

Definition repr_atom (a : atom) : string :=
  match a with
  | Str s => repr_str w s
  | Num x => repr_float w x
  end.

Definition repr_item (kv : string * atom) : string :=
  repr_str w (fst kv) ++ ": " ++ repr_atom (snd kv).

Definition str_value (v : value) : string :=
  match v with
  | Atom a => str_atom a
  | Dict d => "{" ++ join ", " (map repr_item d) ++ "}"
  end.

(** [random.uniform(a, b)] is [a + (b - a) * self.random()]. *)
Definition uniform (a b : float) : M float :=
  fun st =>
    mk_outcome (Ok (a + (b - a) * random w (draws st))%float)
               (mk_state (self st) (S (draws st)) (api_calls st)) [].

(** [sum(l)]: the additions start from 0. *)
Definition sum (l : list float) : float := fold_left PrimFloat.add l 0%float.

(** [x / len(l)]. *)
Definition div_len (x : float) (n : nat) : M float :=
  match n with
  | O => raise ZeroDivisionError
  | _ => ret (x / float_of_nat n)%float
  end.

(** [openai.chat.completions.create(...)]. *)
Definition create (req : request) : M response :=
  fun st =>
    let answer := chat_create w (api_calls st) req in
    mk_outcome answer
               (mk_state (self st) (draws st) (S (api_calls st)))
               [Sent req answer].

(** [TextBlob(text).sentiment.polarity]. *)
Definition textblob_polarity (text : string) : M float :=
  fun st => mk_outcome (polarity w text) st [Scored text (polarity w text)].

(** [response.choices[0].message.content.strip()]. *)
Definition first_content (r : response) : M string :=
  match choices r with
  | [] => raise IndexError
  | None :: _ => raise AttributeError
  | Some text :: _ => ret (strip text)
  end.

(** ** The methods of [FinancialAnalysisSystem] *)

Definition fetch_stock_data (symbol : string) : M dict :=
  emit (Enter "fetch_stock_data") ;;;
  price <- uniform 50 500 ;;
  change <- uniform (-5) 5 ;;
  ret [("symbol", Str symbol);
       ("price", Num (round2 price));
       ("change", Num (round2 change))].

Definition fetch_news_articles (company : string) : M (list string) :=
  emit (Enter "fetch_news_articles") ;;;
  ret [company ++ " announces new product line";
       company ++ " reports quarterly earnings";
       company ++ " faces regulatory scrutiny"].

Definition analyze_sentiment (text : string) : M float :=
  emit (Enter "analyze_sentiment") ;;;
  textblob_polarity text.

Definition fetch_economic_indicators : M dict :=
  emit (Enter "fetch_economic_indicators") ;;;
  gdp <- uniform (-2) 5 ;;
  unemployment <- uniform 3 10 ;;
  inflation <- uniform 0 5 ;;
  ret [("gdp_growth", Num (round2 gdp));
       ("unemployment_rate", Num (round2 unemployment));
       ("inflation_rate", Num (round2 inflation))].

Definition indent : string := "        ".

Definition analyze_market_conditions
    (stock_data sentiment economic_indicators : value) : M string :=
  emit (Enter "analyze_market_conditions") ;;;
  symbol <- subscript stock_data "symbol" ;;
  price <- subscript stock_data "price" ;;
  change <- subscript stock_data "change" ;;
  gdp <- subscript economic_indicators "gdp_growth" ;;
  unemployment <- subscript economic_indicators "unemployment_rate" ;;
  inflation <- subscript economic_indicators "inflation_rate" ;;
  let prompt :=
    nl ++ indent ++
    "Analyze the following market conditions and provide a brief market outlook:"
    ++ nl ++ indent ++
    "Stock: " ++ str_atom symbol ++ " at $" ++ str_atom price
      ++ " (change: " ++ str_atom change ++ "%)"
    ++ nl ++ indent ++
    "News Sentiment: " ++ str_value sentiment
    ++ nl ++ indent ++
    "Economic Indicators:"
    ++ nl ++ indent ++
    "- GDP Growth: " ++ str_atom gdp ++ "%"
    ++ nl ++ indent ++
    "- Unemployment Rate: " ++ str_atom unemployment ++ "%"
    ++ nl ++ indent ++
    "- Inflation Rate: " ++ str_atom inflation ++ "%"
    ++ nl ++ indent in
  response <- create (mk_request "gpt-4-0125-preview"
                                 [mk_message "user" prompt] 150) ;;
  first_content response.

Definition generate_investment_recommendation
    (market_outlook risk_tolerance : string) : M string :=
  emit (Enter "generate_investment_recommendation") ;;;
  let prompt :=
    nl ++ indent ++
    "Based on the following market outlook and investor risk tolerance,"
    ++ nl ++ indent ++
    "provide a specific investment recommendation:"
    ++ nl ++ indent ++
    "Market Outlook: " ++ market_outlook
    ++ nl ++ indent ++
    "Investor Risk Tolerance: " ++ risk_tolerance
    ++ nl ++ indent in
  response <- create (mk_request "gpt-4-0125-preview"
                                 [mk_message "user" prompt] 200) ;;
  first_content response.

Definition financial_advisor_agent
    (stock_symbol risk_tolerance : string) : M string :=
  emit (Enter "FinancialAdvisorAgent") ;;;
  quote <- fetch_stock_data stock_symbol ;;
  set_self (fun o => mk_obj (Dict quote) (news_sentiment o)
                            (economic_indicators o)) ;;;
  news_articles <- fetch_news_articles stock_symbol ;;
  sentiment_scores <- mapM analyze_sentiment news_articles ;;
  average <- div_len (sum sentiment_scores) (length sentiment_scores) ;;
  set_self (fun o => mk_obj (stock_data o) (Atom (Num average))
                            (economic_indicators o)) ;;;
  indicators <- fetch_economic_indicators ;;
  set_self (fun o => mk_obj (stock_data o) (news_sentiment o)
                            (Dict indicators)) ;;;
  o <- get_self ;;
  market_outlook <- analyze_market_conditions
                      (stock_data o) (news_sentiment o) (economic_indicators o) ;;
  recommendation <- generate_investment_recommendation
                      market_outlook risk_tolerance ;;
  ret recommendation.

Definition execute_buy_order (symbol : string) : M unit :=
  emit (Enter "execute_buy_order") ;;;
  emit (Print ("Executing buy order for " ++ symbol)).

Definition execute_sell_order (symbol : string) : M unit :=
  emit (Enter "execute_sell_order") ;;;
  emit (Print ("Executing sell order for " ++ symbol)).

Definition no_action : string :=
  "No action taken based on the current recommendation.".

Definition run_analysis (stock_symbol risk_tolerance : string) : M unit :=
  recommendation <- financial_advisor_agent stock_symbol risk_tolerance ;;
  emit (Print (nl ++ "Analysis for " ++ stock_symbol ++ ":")) ;;;
  o <- get_self ;;
  emit (Print ("Stock Data: " ++ str_value (stock_data o))) ;;;
  o <- get_self ;;
  emit (Print ("News Sentiment: " ++ str_value (news_sentiment o))) ;;;
  o <- get_self ;;
  emit (Print ("Economic Indicators: " ++ str_value (economic_indicators o))) ;;;
  emit (Print (nl ++ "Investment Recommendation:" ++ nl ++ recommendation)) ;;;
  if contains "buy" (lower recommendation) then
    execute_buy_order stock_symbol
  else if contains "sell" (lower recommendation) then
    execute_sell_order stock_symbol
  else
    emit (Print no_action).

End Runtime.

(** ** Laws of the monad *)

Lemma bind_ok {A B} (c : M A) (k : A -> M B) st a :
  res (c st) = Ok a ->
  bind c k st =
  mk_outcome (res (k a (final (c st)))) (final (k a (final (c st))))
             (out (c st) ++ out (k a (final (c st))))%list.
Proof. intros H. unfold bind. rewrite H. reflexivity. Qed.

Lemma bind_raise {A B} (c : M A) (k : A -> M B) st e :
  res (c st) = Raise e ->
  bind c k st = mk_outcome (Raise e) (final (c st)) (out (c st)).
Proof. intros H. unfold bind. rewrite H. reflexivity. Qed.

(** An exception of the first computation is the exception of the whole. *)
Lemma bind_res_raise {A B} (c : M A) (k : A -> M B) st e :
  res (c st) = Raise e -> res (bind c k st) = Raise e.
Proof. intros H. rewrite (bind_raise _ _ _ _ H). reflexivity. Qed.

(** ** What the events of a run say *)

(** The call of an external library that [ev] records raised [e]. *)
Definition failure (e : exn) (ev : event) : Prop :=
  match ev with
  | Scored _ (Raise e') => e' = e
  | Sent _ (Raise e') => e' = e
  | _ => False
  end.

(** What a run shows to its user: a printed line or an order. *)
Definition is_output (ev : event) : bool :=
  match ev with
  | Print _ => true
  | Enter m => String.eqb m "execute_buy_order" || String.eqb m "execute_sell_order"
  | _ => false
  end.

Definition is_enter (name : string) (ev : event) : bool :=
  match ev with
  | Enter m => String.eqb m name
  | _ => false
  end.

Definition is_print (line : string) (ev : event) : bool :=
  match ev with
  | Print l => String.eqb l line
  | _ => false
  end.

Definition count (p : event -> bool) (l : list event) : nat :=
  length (filter p l).

Definition buy_orders (l : list event) : nat :=
  count (is_enter "execute_buy_order") l.
Definition sell_orders (l : list event) : nat :=
  count (is_enter "execute_sell_order") l.
Definition no_action_messages (l : list event) : nat :=
  count (is_print no_action) l.

Lemma count_app p l1 l2 : count p (l1 ++ l2) = count p l1 + count p l2.
Proof. unfold count. rewrite filter_app, length_app. reflexivity. Qed.

Lemma count_none p l :
  Forall (fun ev => p ev = false) l -> count p l = 0.
Proof.
  unfold count. induction 1 as [|ev l Hev _ IH]; simpl.
  - reflexivity.
  - rewrite Hev. exact IH.
Qed.

(** A computation whose every event satisfies [P], from any state. *)
Definition emits {A} (P : event -> Prop) (c : M A) : Prop :=
  forall st, Forall P (out (c st)).

Lemma emits_bind {A B} P (c : M A) (k : A -> M B) :
  emits P c -> (forall a, emits P (k a)) -> emits P (bind c k).
Proof.
  intros Hc Hk st. unfold bind.
  destruct (res (c st)) as [a|e] eqn:E; simpl.
  - apply Forall_app. split; [apply Hc | apply Hk].
  - apply Hc.
Qed.

Lemma emits_ret {A} P (a : A) : emits P (ret a).
Proof. intros st. constructor. Qed.

Lemma emits_raise {A} P e : emits P (@raise A e).
Proof. intros st. constructor. Qed.

Lemma emits_emit (P : event -> Prop) ev : P ev -> emits P (emit ev).
Proof. intros H st. simpl. constructor; [exact H | constructor]. Qed.

Lemma emits_get_self P : emits P get_self.
Proof. intros st. constructor. Qed.

Lemma emits_set_self P f : emits P (set_self f).
Proof. intros st. constructor. Qed.

Lemma emits_uniform P w a b : emits P (uniform w a b).
Proof. intros st. constructor. Qed.

Lemma emits_subscript P v key : emits P (subscript v key).
Proof.
  intros st. destruct v as [[s|x]|d]; simpl; try constructor.
  destruct (lookup key d); constructor.
Qed.

Lemma emits_first_content P r : emits P (first_content r).
Proof.
  intros st. unfold first_content.
  destruct (choices r) as [|[t|] l]; constructor.
Qed.

Lemma emits_div_len P x n : emits P (div_len x n).
Proof. intros st. destruct n; constructor. Qed.

Lemma emits_create (P : event -> Prop) w req :
  (forall answer, P (Sent req answer)) -> emits P (create w req).
Proof. intros H st. simpl. constructor; [apply H | constructor]. Qed.

Lemma emits_textblob (P : event -> Prop) w text :
  (forall answer, P (Scored text answer)) -> emits P (textblob_polarity w text).
Proof. intros H st. simpl. constructor; [apply H | constructor]. Qed.

Lemma emits_mapM {A B} P (f : A -> M B) l :
  (forall a, emits P (f a)) -> emits P (mapM f l).
Proof.
  intros Hf. induction l as [|x t IH]; simpl.
  - apply emits_ret.
  - apply emits_bind; [apply Hf | intros y].
    apply emits_bind; [exact IH | intros ys]. apply emits_ret.
Qed.

(** An outcome in which no external failure went unnoticed: when a call of
    TextBlob or of the endpoint raised [e], the outcome is [Raise e]. *)
Definition propagated {A} (o : outcome A) : Prop :=
  forall e, Exists (failure e) (out o) -> res o = Raise e.

Definition propagates {A} (c : M A) : Prop := forall st, propagated (c st).

Lemma propagates_quiet {A} (c : M A) :
  emits (fun ev => forall e, ~ failure e ev) c -> propagates c.
Proof.
  intros H st e Hex. exfalso.
  apply Exists_exists in Hex. destruct Hex as [ev [Hin Hf]].
  specialize (H st). rewrite Forall_forall in H. exact (H ev Hin e Hf).
Qed.

Lemma propagates_bind {A B} (c : M A) (k : A -> M B) :
  propagates c -> (forall a, propagates (k a)) -> propagates (bind c k).
Proof.
  intros Hc Hk st e. unfold bind.
  destruct (res (c st)) as [a|e'] eqn:E; simpl; intros Hex.
  - apply Exists_app in Hex. destruct Hex as [Hex|Hex].
    + apply Hc in Hex. congruence.
    + apply Hk in Hex. exact Hex.
  - apply Hc in Hex. congruence.
Qed.

Lemma propagates_textblob w text : propagates (textblob_polarity w text).
Proof.
  intros st e Hex. simpl in *.
  inversion Hex as [ev l Hf|ev l Hf]; subst.
  - simpl in Hf. destruct (polarity w text); [contradiction | congruence].
  - inversion Hf.
Qed.

Lemma propagates_create w req : propagates (create w req).
Proof.
  intros st e Hex. simpl in *.
  inversion Hex as [ev l Hf|ev l Hf]; subst.
  - simpl in Hf.
    destruct (chat_create w (api_calls st) req); [contradiction | congruence].
  - inversion Hf.
Qed.

Lemma propagates_mapM {A B} (f : A -> M B) l :
  (forall a, propagates (f a)) -> propagates (mapM f l).
Proof.
  intros Hf. induction l as [|x t IH]; simpl.
  - apply propagates_quiet, emits_ret.
  - apply propagates_bind; [apply Hf | intros y].
    apply propagates_bind; [exact IH | intros ys].
    apply propagates_quiet, emits_ret.
Qed.

Lemma propagates_if {A} (b : bool) (c1 c2 : M A) :
  propagates c1 -> propagates c2 -> propagates (if b then c1 else c2).
Proof. destruct b; auto. Qed.

Lemma emits_if {A} P (b : bool) (c1 c2 : M A) :
  emits P c1 -> emits P c2 -> emits P (if b then c1 else c2).
Proof. destruct b; auto. Qed.

(** One step of a proof that walks down a method's body. *)
Ltac emits_step :=
  first
    [ apply emits_ret | apply emits_raise | apply emits_get_self
    | apply emits_set_self | apply emits_uniform | apply emits_subscript
    | apply emits_first_content | apply emits_div_len
    | apply emits_emit
    | apply emits_create; intros ?
    | apply emits_textblob; intros ?
    | apply emits_if
    | apply emits_mapM; intros ?
    | apply emits_bind; [ | intros ? ] ].

Ltac quiet :=
  apply propagates_quiet; repeat emits_step;
  match goal with |- forall e, ~ failure e _ => intros ? H; exact H end.

Ltac propagates_step :=
  first
    [ apply propagates_textblob | apply propagates_create
    | apply propagates_mapM; intros ?
    | apply propagates_bind; [ | intros ? ]
    | quiet ].

Lemma financial_advisor_agent_propagates w sym risk :
  propagates (financial_advisor_agent w sym risk).
Proof.
  unfold financial_advisor_agent, fetch_stock_data, fetch_news_articles,
    analyze_sentiment, fetch_economic_indicators, analyze_market_conditions,
    generate_investment_recommendation.
  repeat propagates_step.
Qed.

Lemma run_analysis_propagates w sym risk :
  propagates (run_analysis w sym risk).
Proof.
  unfold run_analysis.
  apply propagates_bind; [apply financial_advisor_agent_propagates | intros rec].
  unfold execute_buy_order, execute_sell_order. quiet.
Qed.

(** The agent prints nothing and places no order. *)
Lemma financial_advisor_agent_silent w sym risk :
  emits (fun ev => is_output ev = false) (financial_advisor_agent w sym risk).
Proof.
  unfold financial_advisor_agent, fetch_stock_data, fetch_news_articles,
    analyze_sentiment, fetch_economic_indicators, analyze_market_conditions,
    generate_investment_recommendation.
  repeat emits_step; reflexivity.
Qed.

(** ** [run_analysis] after the agent *)

(** The five lines [run_analysis] prints once the agent has returned. *)
Definition report (w : world) (sym rec : string) (o : obj) : list event :=
  [Print (nl ++ "Analysis for " ++ sym ++ ":");
   Print ("Stock Data: " ++ str_value w (stock_data o));
   Print ("News Sentiment: " ++ str_value w (news_sentiment o));
   Print ("Economic Indicators: " ++ str_value w (economic_indicators o));
   Print (nl ++ "Investment Recommendation:" ++ nl ++ rec)].

(** The branch on the keywords, as a computation. *)
Definition act (sym rec : string) : M unit :=
  if contains "buy" (lower rec) then execute_buy_order sym
  else if contains "sell" (lower rec) then execute_sell_order sym
  else emit (Print no_action).

Lemma act_total sym rec st :
  res (act sym rec st) = Ok tt /\ final (act sym rec st) = st.
Proof.
  unfold act.
  destruct (contains "buy" (lower rec));
    [| destruct (contains "sell" (lower rec))]; split; reflexivity.
Qed.

Lemma run_analysis_returns w sym risk st rec :
  res (financial_advisor_agent w sym risk st) = Ok rec ->
  let a := financial_advisor_agent w sym risk st in
  run_analysis w sym risk st =
  mk_outcome (Ok tt) (final a)
    (out a ++ report w sym rec (self (final a)) ++ out (act sym rec (final a)))%list.
Proof.
  intros H a. unfold run_analysis.
  rewrite (bind_ok _ _ _ _ H). fold a.
  unfold act.
  destruct (contains "buy" (lower rec));
    [| destruct (contains "sell" (lower rec))]; reflexivity.
Qed.

Lemma run_analysis_raises w sym risk st e :
  res (financial_advisor_agent w sym risk st) = Raise e ->
  let a := financial_advisor_agent w sym risk st in
  run_analysis w sym risk st = mk_outcome (Raise e) (final a) (out a).
Proof.
  intros H a. unfold run_analysis. rewrite (bind_raise _ _ _ _ H). reflexivity.
Qed.

(** [run_analysis] returns exactly when the agent does. *)
Lemma run_analysis_res w sym risk st :
  res (run_analysis w sym risk st) =
  match res (financial_advisor_agent w sym risk st) with
  | Ok _ => Ok tt
  | Raise e => Raise e
  end.
Proof.
  destruct (res (financial_advisor_agent w sym risk st)) as [rec|e] eqn:E.
  - rewrite (run_analysis_returns _ _ _ _ _ E). cbn [res final]. reflexivity.
  - rewrite (run_analysis_raises _ _ _ _ _ E). cbn [res final]. reflexivity.
Qed.

Lemma report_counts w sym rec o :
  buy_orders (report w sym rec o) = 0 /\
  sell_orders (report w sym rec o) = 0 /\
  no_action_messages (report w sym rec o) = 0.
Proof. repeat split. Qed.

Lemma agent_counts w sym risk st :
  let l := out (financial_advisor_agent w sym risk st) in
  buy_orders l = 0 /\ sell_orders l = 0 /\ no_action_messages l = 0.
Proof.
  intros l.
  assert (H : Forall (fun ev => is_output ev = false) l)
    by apply financial_advisor_agent_silent.
  repeat split; apply count_none; revert H; apply Forall_impl;
    intros [m|t r|q r|s]; simpl; try reflexivity; try discriminate.
  - intros H. apply orb_false_iff in H. tauto.
  - intros H. apply orb_false_iff in H. tauto.
Qed.

(** ** The claims *)

(** C1. For every recommendation that [financial_advisor_agent] returns,
    [run_analysis] ends normally, and what it does after the five report
    lines is decided by a substring test on the lower-cased recommendation:
    [execute_buy_order(stock_symbol)] when it contains "buy", otherwise
    [execute_sell_order(stock_symbol)] when it contains "sell", otherwise
    one print of the no-action message. *)
Theorem run_analysis_keyword_branch w sym risk st rec :
  res (financial_advisor_agent w sym risk st) = Ok rec ->
  let a := financial_advisor_agent w sym risk st in
  let o := run_analysis w sym risk st in
  res o = Ok tt /\
  out o =
    (out a ++ report w sym rec (self (final a)) ++
     out ((if contains "buy" (lower rec) then execute_buy_order sym
           else if contains "sell" (lower rec) then execute_sell_order sym
           else emit (Print no_action)) (final a)))%list /\
  out (execute_buy_order sym (final a)) =
    [Enter "execute_buy_order"; Print ("Executing buy order for " ++ sym)] /\
  out (execute_sell_order sym (final a)) =
    [Enter "execute_sell_order"; Print ("Executing sell order for " ++ sym)].
Proof.
  intros H a o. subst o.
  rewrite (run_analysis_returns _ _ _ _ _ H). fold a.
  repeat split.
Qed.

(** *** Worlds to run the system in *)

(** A world in which every random draw is one half, TextBlob answers
    [score] and the endpoint answers [reply]. *)
Definition demo_world (score : string -> result float)
    (reply : nat -> request -> result response) : world :=
  mk_world (fun _ => 0.5%float) score reply
           (fun _ => "<float>") (fun s => "'" ++ s ++ "'").

Definition says (text : string) : nat -> request -> result response :=
  fun _ _ => Ok (mk_response [Some text]).

Definition w_both : world :=
  demo_world (fun _ => Ok 0.25%float) (says "  Buy now, SELL later.  ").

Definition w_sell : world :=
  demo_world (fun _ => Ok 0.25%float) (says "Sell.").

Definition w_hold : world :=
  demo_world (fun _ => Ok 0.25%float) (says "Hold.").

(** TextBlob fails on the second headline. *)
Definition w_textblob_down : world :=
  demo_world
    (fun text => if String.eqb text "AAPL reports quarterly earnings"
                 then Raise (SentimentError "corpus missing")
                 else Ok 0.25%float)
    (says "Buy").

(** The endpoint answers the first call and fails on the second. *)
Definition w_api_down : world :=
  demo_world (fun _ => Ok 0.25%float)
    (fun n _ => match n with
                | O => Ok (mk_response [Some "Outlook: stable."])
                | _ => Raise (ApiError "rate limit")
                end).

Lemma run_analysis_keyword_branch_witness :
  res (financial_advisor_agent w_sell "AAPL" "moderate" init) = Ok "Sell." /\
  out (run_analysis w_sell "AAPL" "moderate" init) =
    (out (financial_advisor_agent w_sell "AAPL" "moderate" init) ++
     report w_sell "AAPL" "Sell."
       (self (final (financial_advisor_agent w_sell "AAPL" "moderate" init))) ++
     [Enter "execute_sell_order"; Print "Executing sell order for AAPL"])%list.
Proof.
  assert (H : res (financial_advisor_agent w_sell "AAPL" "moderate" init)
              = Ok "Sell.") by reflexivity.
  split; [exact H |].
  exact (proj1 (proj2 (run_analysis_keyword_branch _ _ _ _ _ H))).
Defined.

(** C8. At most one of the three branches of [run_analysis] runs, and
    exactly one when the agent returned a recommendation; when the
    lower-cased recommendation contains "buy" (whether or not it also
    contains "sell") that one is [execute_buy_order]: [execute_sell_order]
    is not called and the no-action message is not printed. *)
Theorem run_analysis_one_branch w sym risk st :
  let o := run_analysis w sym risk st in
  buy_orders (out o) + sell_orders (out o) + no_action_messages (out o) <= 1 /\
  forall rec,
    res (financial_advisor_agent w sym risk st) = Ok rec ->
    buy_orders (out o) + sell_orders (out o) + no_action_messages (out o) = 1 /\
    (contains "buy" (lower rec) = true ->
     buy_orders (out o) = 1 /\ sell_orders (out o) = 0 /\
     no_action_messages (out o) = 0).
Proof.
  intros o.
  destruct (agent_counts w sym risk st) as [Hb [Hs Hn]].
  assert (Hrec : forall rec,
    res (financial_advisor_agent w sym risk st) = Ok rec ->
    buy_orders (out o) + sell_orders (out o) + no_action_messages (out o) = 1 /\
    (contains "buy" (lower rec) = true ->
     buy_orders (out o) = 1 /\ sell_orders (out o) = 0 /\
     no_action_messages (out o) = 0)).
  { intros rec H. subst o.
    rewrite (run_analysis_returns _ _ _ _ _ H). cbn [out].
    unfold buy_orders, sell_orders, no_action_messages in *.
    rewrite !count_app, Hb, Hs, Hn.
    unfold act.
    destruct (contains "buy" (lower rec));
      [| destruct (contains "sell" (lower rec))];
      (split; [reflexivity | intros Hc; try discriminate; repeat split]). }
  split; [| exact Hrec].
  destruct (res (financial_advisor_agent w sym risk st)) as [rec|e] eqn:E.
  - destruct (Hrec rec eq_refl) as [-> _]. constructor.
  - subst o. rewrite (run_analysis_raises _ _ _ _ _ E). cbn [out].
    rewrite Hb, Hs, Hn. auto.
Qed.

Lemma run_analysis_one_branch_witness :
  res (financial_advisor_agent w_both "AAPL" "moderate" init)
    = Ok "Buy now, SELL later." /\
  contains "buy" (lower "Buy now, SELL later.") = true /\
  contains "sell" (lower "Buy now, SELL later.") = true /\
  buy_orders (out (run_analysis w_both "AAPL" "moderate" init)) = 1 /\
  sell_orders (out (run_analysis w_both "AAPL" "moderate" init)) = 0 /\
  no_action_messages (out (run_analysis w_both "AAPL" "moderate" init)) = 0.
Proof.
  assert (H : res (financial_advisor_agent w_both "AAPL" "moderate" init)
              = Ok "Buy now, SELL later.") by reflexivity.
  assert (Hb : contains "buy" (lower "Buy now, SELL later.") = true)
    by reflexivity.
  split; [exact H |]. split; [exact Hb |]. split; [reflexivity |].
  exact (proj2 (proj2 (run_analysis_one_branch w_both "AAPL" "moderate" init)
                  _ H) Hb).
Defined.

(** C10. [fetch_news_articles] is deterministic: whatever the state it is
    called in, it returns the same list of three headlines, each of which
    begins with the company string, and it changes nothing. *)
Theorem fetch_news_articles_deterministic company st1 st2 :
  res (fetch_news_articles company st1) = res (fetch_news_articles company st2) /\
  final (fetch_news_articles company st1) = st1 /\
  exists h1 h2 h3,
    res (fetch_news_articles company st1) = Ok [h1; h2; h3] /\
    starts_with company h1 = true /\ starts_with company h2 = true /\
    starts_with company h3 = true.
Proof.
  assert (Hp : forall t, starts_with company (company ++ t) = true).
  { intros t. induction company as [|c s IH]; simpl.
    - reflexivity.
    - rewrite IH, Ascii.eqb_refl. reflexivity. }
  split; [reflexivity |]. split; [reflexivity |].
  do 3 eexists. split; [reflexivity |].
  repeat split; apply Hp.
Qed.




(** ** Frame lemmas: what a computation leaves alone *)

(** [c] does not change the part [f] of the object. *)
Definition keeps {A T} (f : obj -> T) (c : M A) : Prop :=
  forall st, f (self (final (c st))) = f (self st).

Lemma keeps_bind {A B T} (f : obj -> T) (c : M A) (k : A -> M B) :
  keeps f c -> (forall a, keeps f (k a)) -> keeps f (bind c k).
Proof.
  intros Hc Hk st. unfold bind.
  destruct (res (c st)) as [a|e]; simpl.
  - rewrite Hk. apply Hc.
  - apply Hc.
Qed.

Lemma keeps_same {A T} (f : obj -> T) (c : M A) :
  (forall st, self (final (c st)) = self st) -> keeps f c.
Proof. intros H st. rewrite H. reflexivity. Qed.

Lemma keeps_set_self {T} (f : obj -> T) g :
  (forall o, f (g o) = f o) -> keeps f (set_self g).
Proof. intros H st. simpl. apply H. Qed.

Lemma keeps_mapM {A B T} (f : obj -> T) (g : A -> M B) l :
  (forall a, keeps f (g a)) -> keeps f (mapM g l).
Proof.
  intros Hg. induction l as [|x t IH]; simpl.
  - intros st. reflexivity.
  - apply keeps_bind; [apply Hg | intros y].
    apply keeps_bind; [exact IH | intros ys st]. reflexivity.
Qed.

Lemma keeps_if {A T} (f : obj -> T) (b : bool) (c1 c2 : M A) :
  keeps f c1 -> keeps f c2 -> keeps f (if b then c1 else c2).
Proof. destruct b; auto. Qed.

Lemma subscript_self v key st : self (final (subscript v key st)) = self st.
Proof.
  destruct v as [[s|x]|d]; simpl; try reflexivity.
  destruct (lookup key d); reflexivity.
Qed.

Lemma first_content_self r st : self (final (first_content r st)) = self st.
Proof.
  unfold first_content. destruct (choices r) as [|[t|] l]; reflexivity.
Qed.

Lemma div_len_self x n st : self (final (div_len x n st)) = self st.
Proof. destruct n; reflexivity. Qed.

Ltac keeps_step :=
  first
    [ apply keeps_set_self; intros ?; reflexivity
    | apply keeps_if
    | apply keeps_mapM; intros ?
    | apply keeps_bind; [ | intros ? ]
    | apply keeps_same; intros ?;
      first [ reflexivity | apply subscript_self | apply first_content_self
            | apply div_len_self ] ].

Lemma final_mk {A} (r : result A) st l : final (mk_outcome r st l) = st.
Proof. reflexivity. Qed.

Lemma final_bind_ok {A B} (c : M A) (k : A -> M B) st a :
  res (c st) = Ok a -> final (bind c k st) = final (k a (final (c st))).
Proof. intros H. rewrite (bind_ok _ _ _ _ H). reflexivity. Qed.

Ltac run_ok :=
  match goal with
  | |- context [final (bind ?c ?k ?st)] =>
      erewrite (final_bind_ok c k st) by reflexivity
  end.

(** [run_analysis] leaves the state as the agent left it. *)
Lemma run_analysis_final w sym risk st :
  final (run_analysis w sym risk st) =
  final (financial_advisor_agent w sym risk st).
Proof.
  destruct (res (financial_advisor_agent w sym risk st)) as [rec|e] eqn:E.
  - rewrite (run_analysis_returns _ _ _ _ _ E). apply final_mk.
  - rewrite (run_analysis_raises _ _ _ _ _ E). apply final_mk.
Qed.

Lemma analyze_sentiment_ok w text p st :
  polarity w text = Ok p ->
  res (analyze_sentiment w text st) = Ok p /\
  final (analyze_sentiment w text st) = st.
Proof.
  intros H. unfold analyze_sentiment, bind, emit, textblob_polarity.
  cbn [res final out]. rewrite H. split; reflexivity.
Qed.

Lemma mapM_cons_ok {A B} (f : A -> M B) x t y ys st :
  res (f x st) = Ok y /\ final (f x st) = st ->
  res (mapM f t st) = Ok ys /\ final (mapM f t st) = st ->
  res (mapM f (x :: t) st) = Ok (y :: ys) /\ final (mapM f (x :: t) st) = st.
Proof.
  intros [Hx Fx] [Ht Ft]. cbn [mapM]. unfold bind.
  rewrite Hx, Fx. cbn [res final]. rewrite Ht, Ft. cbn [res final].
  split; reflexivity.
Qed.

(** The three calls of [analyze_sentiment] when TextBlob answers. *)
Lemma scores_ok w h1 h2 h3 p1 p2 p3 st :
  polarity w h1 = Ok p1 -> polarity w h2 = Ok p2 -> polarity w h3 = Ok p3 ->
  res (mapM (analyze_sentiment w) [h1; h2; h3] st) = Ok [p1; p2; p3] /\
  final (mapM (analyze_sentiment w) [h1; h2; h3] st) = st.
Proof.
  intros H1 H2 H3.
  repeat (apply mapM_cons_ok; [apply analyze_sentiment_ok; assumption |]).
  split; reflexivity.
Qed.

(** What follows the assignment of [self.news_sentiment] in the agent. *)
Definition after_sentiment (w : world) (risk_tolerance : string) : M string :=
  indicators <- fetch_economic_indicators w ;;
  set_self (fun o => mk_obj (stock_data o) (news_sentiment o)
                            (Dict indicators)) ;;;
  o <- get_self ;;
  market_outlook <- analyze_market_conditions w
                      (stock_data o) (news_sentiment o) (economic_indicators o) ;;
  recommendation <- generate_investment_recommendation w
                      market_outlook risk_tolerance ;;
  ret recommendation.

Lemma after_sentiment_keeps_sentiment w risk :
  keeps news_sentiment (after_sentiment w risk).
Proof.
  unfold after_sentiment, fetch_economic_indicators, analyze_market_conditions,
    generate_investment_recommendation.
  repeat keeps_step.
Qed.

Lemma after_sentiment_keeps_stock_data w risk :
  keeps stock_data (after_sentiment w risk).
Proof.
  unfold after_sentiment, fetch_economic_indicators, analyze_market_conditions,
    generate_investment_recommendation.
  repeat keeps_step.
Qed.

(** C4. When TextBlob scores the three headlines that
    [fetch_news_articles] returns for the symbol, the agent leaves in
    [self.news_sentiment] the sum of the three scores (added in order,
    starting from 0) divided by the number of headlines, three; this holds
    whether or not the later calls of the endpoint succeed. *)
Theorem news_sentiment_is_average w sym risk st h1 h2 h3 p1 p2 p3 :
  res (fetch_news_articles sym st) = Ok [h1; h2; h3] ->
  polarity w h1 = Ok p1 -> polarity w h2 = Ok p2 -> polarity w h3 = Ok p3 ->
  let o := financial_advisor_agent w sym risk st in
  news_sentiment (self (final o)) =
    Atom (Num (sum [p1; p2; p3] / float_of_nat (length [h1; h2; h3]))) /\
  (sum [p1; p2; p3] / float_of_nat (length [h1; h2; h3]) =
   (0 + p1 + p2 + p3) / 3)%float.
Proof.
  intros Hn H1 H2 H3 o. split; [| reflexivity].
  injection Hn as <- <- <-.
  subst o. unfold financial_advisor_agent.
  do 3 run_ok.
  erewrite final_bind_ok by reflexivity.
  erewrite final_bind_ok by (apply scores_ok; eassumption).
  do 2 run_ok.
  exact (after_sentiment_keeps_sentiment w risk _).
Qed.

Lemma news_sentiment_is_average_witness :
  res (fetch_news_articles "AAPL" init) =
    Ok ["AAPL announces new product line"; "AAPL reports quarterly earnings";
        "AAPL faces regulatory scrutiny"] /\
  polarity w_sell "AAPL announces new product line" = Ok 0.25%float /\
  news_sentiment (self (final (financial_advisor_agent w_sell "AAPL" "moderate" init)))
    = Atom (Num (sum [0.25; 0.25; 0.25]
                 / float_of_nat (length ["AAPL announces new product line";
                                         "AAPL reports quarterly earnings";
                                         "AAPL faces regulatory scrutiny"]))%float).
Proof.
  split; [reflexivity |]. split; [reflexivity |].
  exact (proj1 (news_sentiment_is_average w_sell "AAPL" "moderate" init
                  "AAPL announces new product line"
                  "AAPL reports quarterly earnings"
                  "AAPL faces regulatory scrutiny"
                  0.25%float 0.25%float 0.25%float
                  eq_refl eq_refl eq_refl eq_refl)).
Defined.

(** C6. Nothing catches an exception. When a call of the sentiment library
    or of the chat-completion endpoint made during [run_analysis] raises
    [e], [run_analysis] raises that same [e]; and a run that raises has
    printed nothing and placed no order: no recommendation, no buy order,
    no sell order and no no-action message. *)
Theorem errors_propagate w sym risk st e :
  let o := run_analysis w sym risk st in
  (Exists (failure e) (out o) -> res o = Raise e) /\
  (res o = Raise e -> Forall (fun ev => is_output ev = false) (out o)).
Proof.
  intros o. split.
  - apply run_analysis_propagates.
  - subst o. rewrite run_analysis_res.
    destruct (res (financial_advisor_agent w sym risk st)) as [rec|e'] eqn:E;
      [discriminate |].
    intros _. rewrite (run_analysis_raises _ _ _ _ _ E). cbn [out].
    apply financial_advisor_agent_silent.
Qed.

Lemma errors_propagate_witness :
  Exists (failure (SentimentError "corpus missing"))
         (out (run_analysis w_textblob_down "AAPL" "moderate" init)) /\
  res (run_analysis w_textblob_down "AAPL" "moderate" init)
    = Raise (SentimentError "corpus missing") /\
  Forall (fun ev => is_output ev = false)
         (out (run_analysis w_textblob_down "AAPL" "moderate" init)).
Proof.
  assert (H : Exists (failure (SentimentError "corpus missing"))
                (out (run_analysis w_textblob_down "AAPL" "moderate" init))).
  { apply Exists_exists.
    exists (Scored "AAPL reports quarterly earnings"
                   (Raise (SentimentError "corpus missing"))).
    split; [| reflexivity].
    vm_compute. repeat (first [left; reflexivity | right]). }
  pose proof (errors_propagate w_textblob_down "AAPL" "moderate" init
                (SentimentError "corpus missing")) as [Hr Hs].
  split; [exact H |]. split; [exact (Hr H) | exact (Hs (Hr H))].
Defined.

(** *** Requests *)

(** The shape of a request: a model identifier, one message of role
    "user", and the token cap [cap]. *)
Definition single_user_prompt (cap : Z) (req : request) : Prop :=
  model req = "gpt-4-0125-preview" /\
  (exists prompt, messages req = [mk_message "user" prompt]) /\
  max_tokens req = cap.

(** Every request among the events has a cap that [caps] allows. *)
Definition requests_capped (caps : list Z) (ev : event) : Prop :=
  match ev with
  | Sent req _ => exists cap, In cap caps /\ single_user_prompt cap req
  | _ => True
  end.

Ltac capped :=
  repeat emits_step; try exact I;
  eexists; (split; [ | repeat split; eexists; reflexivity ]); simpl; tauto.

(** *** The stock quote *)

Definition is_stock_print (ev : event) : bool :=
  match ev with
  | Print line => starts_with "Stock Data: " line
  | _ => false
  end.

Lemma agent_stock_data w sym risk st quote :
  res (fetch_stock_data w sym st) = Ok quote ->
  stock_data (self (final (financial_advisor_agent w sym risk st))) = Dict quote.
Proof.
  intros H. injection H as <-.
  unfold financial_advisor_agent.
  do 3 run_ok.
  match goal with
  | |- stock_data (self (final (?c ?s))) = _ =>
      assert (K : keeps stock_data c)
  end.
  { unfold fetch_news_articles, analyze_sentiment, fetch_economic_indicators,
      analyze_market_conditions, generate_investment_recommendation.
    repeat keeps_step. }
  rewrite K. reflexivity.
Qed.

Lemma agent_no_stock_print w sym risk st :
  count is_stock_print (out (financial_advisor_agent w sym risk st)) = 0.
Proof.
  apply count_none.
  generalize (financial_advisor_agent_silent w sym risk st).
  apply Forall_impl. intros [m|t r|q r|s]; simpl; try reflexivity; discriminate.
Qed.

(** C3, as the code has it. The quote that [fetch_stock_data] returns has
    exactly the keys symbol, price and change, in this order. The agent
    stores it in [self.stock_data], and it is still there when
    [run_analysis] has finished, whether it returned or raised. A run that
    returns prints it exactly once, in the line that starts with
    "Stock Data: ". *)
Theorem stock_quote_kept w sym risk st :
  let o := run_analysis w sym risk st in
  exists price change,
    let quote := [("symbol", Str sym); ("price", Num price);
                  ("change", Num change)] in
    res (fetch_stock_data w sym st) = Ok quote /\
    map fst quote = ["symbol"; "price"; "change"] /\
    stock_data (self (final o)) = Dict quote /\
    (res o = Ok tt ->
     In (Print ("Stock Data: " ++ str_value w (Dict quote))) (out o) /\
     count is_stock_print (out o) = 1).
Proof.
  intros o. do 2 eexists. cbv zeta.
  split; [reflexivity |]. split; [reflexivity |].
  assert (Hq : stock_data (self (final (financial_advisor_agent w sym risk st)))
               = Dict [("symbol", Str sym);
                       ("price", Num (round2 (50 + (500 - 50) * random w (draws st))));
                       ("change", Num (round2 (-5 + (5 - -5) * random w (S (draws st)))))])
    by (apply agent_stock_data; reflexivity).
  split.
  - subst o. rewrite run_analysis_final. exact Hq.
  - subst o. rewrite run_analysis_res.
    destruct (res (financial_advisor_agent w sym risk st)) as [rec|e] eqn:E;
      [intros _ | discriminate].
    rewrite (run_analysis_returns _ _ _ _ _ E). cbn [out]. split.
    + apply in_or_app. right. apply in_or_app. left.
      unfold report. rewrite Hq. right. left. reflexivity.
    + rewrite !count_app, agent_no_stock_print. unfold act.
      destruct (contains "buy" (lower rec));
        [| destruct (contains "sell" (lower rec))]; reflexivity.
Qed.

Lemma stock_quote_kept_witness :
  res (run_analysis w_sell "AAPL" "moderate" init) = Ok tt /\
  count is_stock_print (out (run_analysis w_sell "AAPL" "moderate" init)) = 1.
Proof.
  assert (H : res (run_analysis w_sell "AAPL" "moderate" init) = Ok tt)
    by reflexivity.
  split; [exact H |].
  destruct (stock_quote_kept w_sell "AAPL" "moderate" init)
    as [price [change [_ [_ [_ Hp]]]]].
  exact (proj2 (Hp H)).
Defined.

(** C3, as the claim has it, fails: after a whole run from a fresh object
    the quote is in [self.stock_data], which [__init__] had left empty. *)
Lemma stock_quote_discarded_counterexample :
  res (run_analysis w_sell "AAPL" "moderate" init) = Ok tt /\
  stock_data (self init) = Dict [] /\
  stock_data (self (final (run_analysis w_sell "AAPL" "moderate" init))) =
    Dict [("symbol", Str "AAPL"); ("price", Num 275); ("change", Num 0)].
Proof. repeat split. Qed.

(** *** The order of the operations *)

















(** *** What an output depends on *)

(** A world like [w_sell] but for its random draws, all one quarter. *)
Definition w_quarter : world :=
  mk_world (fun _ => 0.25%float) (polarity w_sell) (chat_create w_sell)
           (repr_float w_sell) (repr_str w_sell).

(** A world like [w_sell] but for the random draws, all [r], and for
    [repr], which tells a float below 200 from the others. *)
Definition w_shown (r : float) : world :=
  mk_world (fun _ => r) (polarity w_sell) (chat_create w_sell)
           (fun x => if (x <? 200)%float then "low" else "high")
           (repr_str w_sell).

Lemma bind_cong {A B} (c : M A) (k1 k2 : A -> M B) st :
  (forall a, k1 a (final (c st)) = k2 a (final (c st))) ->
  bind c k1 st = bind c k2 st.
Proof.
  intros H. unfold bind. destruct (res (c st)) as [a|e]; [| reflexivity].
  rewrite H. reflexivity.
Qed.

Lemma subscript_final v key st : final (subscript v key st) = st.
Proof.
  destruct v as [[x|x]|d]; cbn [subscript]; try reflexivity.
  destruct (lookup key d); reflexivity.
Qed.

(** C7, as the code has it. The results of [fetch_news_articles],
    [execute_buy_order] and [execute_sell_order] are fixed by their
    argument: no random number and no answer of the model enters them, and
    more than "a string is returned" holds of them. [fetch_stock_data] and
    [fetch_economic_indicators] are determined by the random draws, and
    both vary with them. [analyze_sentiment] is determined by TextBlob;
    [analyze_market_conditions] and [generate_investment_recommendation]
    are determined by their arguments and what the endpoint answers, and
    vary with the answer; so does what [financial_advisor_agent] returns;
    and what [run_analysis] prints varies with the random draws and with
    the answers of the endpoint. *)
Theorem outputs_and_their_sources w1 w2 sym text outlook risk sd s ei st :
  (res (fetch_news_articles sym st) =
     Ok [sym ++ " announces new product line";
         sym ++ " reports quarterly earnings";
         sym ++ " faces regulatory scrutiny"] /\
   execute_buy_order sym st =
     mk_outcome (Ok tt) st
       [Enter "execute_buy_order"; Print ("Executing buy order for " ++ sym)] /\
   execute_sell_order sym st =
     mk_outcome (Ok tt) st
       [Enter "execute_sell_order"; Print ("Executing sell order for " ++ sym)]) /\
  ((forall i, random w1 i = random w2 i) ->
   fetch_stock_data w1 sym st = fetch_stock_data w2 sym st /\
   fetch_economic_indicators w1 st = fetch_economic_indicators w2 st) /\
  (polarity w1 text = polarity w2 text ->
   analyze_sentiment w1 text st = analyze_sentiment w2 text st) /\
  ((forall req, chat_create w1 (api_calls st) req = chat_create w2 (api_calls st) req) ->
   generate_investment_recommendation w1 outlook risk st =
   generate_investment_recommendation w2 outlook risk st) /\
  (random w_sell 0 <> random w_quarter 0 /\
   res (fetch_stock_data w_sell "AAPL" init) =
     Ok [("symbol", Str "AAPL"); ("price", Num 275); ("change", Num 0)] /\
   res (fetch_stock_data w_quarter "AAPL" init) =
     Ok [("symbol", Str "AAPL"); ("price", Num 162.5); ("change", Num (-2.5))]) /\
  (res (fetch_economic_indicators w_sell init) =
     Ok [("gdp_growth", Num 1.5); ("unemployment_rate", Num 6.5);
         ("inflation_rate", Num 2.5)] /\
   res (fetch_economic_indicators w_quarter init) =
     Ok [("gdp_growth", Num (-0.25)); ("unemployment_rate", Num 4.75);
         ("inflation_rate", Num 1.25)]) /\
  ((forall req, chat_create w1 (api_calls st) req = chat_create w2 (api_calls st) req) ->
   repr_float w1 = repr_float w2 -> repr_str w1 = repr_str w2 ->
   analyze_market_conditions w1 sd s ei st =
   analyze_market_conditions w2 sd s ei st) /\
  (let quote := Dict [("symbol", Str "AAPL"); ("price", Num 275);
                      ("change", Num 0)] in
   let indicators := Dict [("gdp_growth", Num 1.5);
                           ("unemployment_rate", Num 6.5);
                           ("inflation_rate", Num 2.5)] in
   res (analyze_market_conditions w_sell quote (Atom (Num 0.25)) indicators init)
     = Ok "Sell." /\
   res (analyze_market_conditions w_hold quote (Atom (Num 0.25)) indicators init)
     = Ok "Hold." /\
   res (generate_investment_recommendation w_sell "Stable." "moderate" init)
     = Ok "Sell." /\
   res (generate_investment_recommendation w_hold "Stable." "moderate" init)
     = Ok "Hold." /\
   res (financial_advisor_agent w_sell "AAPL" "moderate" init) = Ok "Sell." /\
   res (financial_advisor_agent w_hold "AAPL" "moderate" init) = Ok "Hold.") /\
  (let printed w := filter is_output (out (run_analysis w "AAPL" "moderate" init)) in
   nth_error (printed (w_shown 0.5)) 1 =
     Some (Print "Stock Data: {'symbol': 'AAPL', 'price': high, 'change': low}") /\
   nth_error (printed (w_shown 0.25)) 1 =
     Some (Print "Stock Data: {'symbol': 'AAPL', 'price': low, 'change': low}") /\
   nth_error (printed w_sell) 6 = Some (Print "Executing sell order for AAPL") /\
   nth_error (printed w_hold) 5 = Some (Print no_action)).
Proof.
  split; [repeat split |].
  split; [| split; [| split; [| split; [| split; [| split; [| split]]]]]].
  - intros H. unfold fetch_stock_data, fetch_economic_indicators, uniform, bind.
    cbn [res final out emit ret draws self api_calls].
    rewrite !H. split; reflexivity.
  - intros H. unfold analyze_sentiment, textblob_polarity, bind.
    cbn [res final out emit]. rewrite H. reflexivity.
  - intros H. unfold generate_investment_recommendation, create, bind.
    cbn [res final out emit]. rewrite H. reflexivity.
  - repeat split.
    intros H. apply (f_equal (fun x => PrimFloat.eqb x 0.5)) in H.
    vm_compute in H. discriminate.
  - split; vm_compute; reflexivity.
  - intros Hc Hf Hs. unfold analyze_market_conditions.
    apply bind_cong. intros _. cbn [final emit].
    do 6 (apply bind_cong; intros ?; rewrite subscript_final).
    unfold str_value, repr_item, repr_atom. unfold str_atom. rewrite Hf, Hs.
    unfold bind, create. cbn [res final out]. rewrite Hc. reflexivity.
  - cbv zeta. repeat split; vm_compute; reflexivity.
  - cbv zeta. repeat split; vm_compute; reflexivity.
Qed.

Lemma outputs_and_their_sources_witness :
  (forall i, random w_sell i = random w_hold i) /\
  fetch_stock_data w_sell "AAPL" init = fetch_stock_data w_hold "AAPL" init.
Proof.
  assert (H : forall i, random w_sell i = random w_hold i)
    by (intros i; reflexivity).
  split; [exact H |].
  exact (proj1 (proj1 (proj2 (outputs_and_their_sources
                  w_sell w_hold "AAPL" "" "" "" (Dict []) (Dict []) (Dict [])
                  init)) H)).
Defined.

(** C7, as the claim has it, fails on [fetch_news_articles]: called on a
    fresh object, or after a whole run that has drawn five random numbers
    and asked the model twice, it returns the same three headlines. *)
Lemma outputs_counterexample :
  draws (final (run_analysis w_both "AAPL" "moderate" init)) = 5 /\
  api_calls (final (run_analysis w_both "AAPL" "moderate" init)) = 2 /\
  res (fetch_news_articles "AAPL" init) =
    Ok ["AAPL announces new product line"; "AAPL reports quarterly earnings";
        "AAPL faces regulatory scrutiny"] /\
  res (fetch_news_articles "AAPL"
         (final (run_analysis w_both "AAPL" "moderate" init))) =
    Ok ["AAPL announces new product line"; "AAPL reports quarterly earnings";
        "AAPL faces regulatory scrutiny"].
Proof. repeat split. Qed.

(** * Binary64 arithmetic: what rounding to nearest keeps

    [random.uniform(a, b)] and [round(x, 2)] compute on floats. This part
    follows the specification of the format ([SpecFloat]) to bound their
    results: a sum or product that lies, as a real number, between two
    numbers of the format is rounded to a float between them. *)

Module Binary64.

Local Open Scope Z_scope.


(** The exponent of the binary64 format for a number of magnitude [2^e]. *)
Definition fx (e : Z) : Z := Z.max (e - 53) (-1074).

Lemma fexp_fx e : fexp prec emax e = fx e.
Proof. reflexivity. Qed.

(** Hide the powers of two from [lia]. *)
Ltac hide_pows :=
  repeat match goal with
         | |- context [2 ^ ?x] =>
             let v := fresh "pw" in set (v := 2 ^ x) in *; clearbody v
         | H : context [2 ^ ?x] |- _ =>
             let v := fresh "pw" in set (v := 2 ^ x) in *; clearbody v
         end.

Lemma digits_pos_bounds p :
  2 ^ (Zpos (digits2_pos p) - 1) <= Zpos p < 2 ^ Zpos (digits2_pos p).
Proof.
  induction p as [p IH|p IH|]; cbn [digits2_pos].
  - rewrite Pos2Z.inj_succ. change (Z.pos p~1) with (2 * Z.pos p + 1).
    replace (Z.succ (Zpos (digits2_pos p)) - 1) with (Z.succ (Zpos (digits2_pos p) - 1)) by lia.
    rewrite !Z.pow_succ_r by lia. hide_pows. lia.
  - rewrite Pos2Z.inj_succ. change (Z.pos p~0) with (2 * Z.pos p).
    replace (Z.succ (Zpos (digits2_pos p)) - 1) with (Z.succ (Zpos (digits2_pos p) - 1)) by lia.
    rewrite !Z.pow_succ_r by lia. hide_pows. lia.
  - cbn. lia.
Qed.

Lemma digits_unique p k :
  2 ^ (k - 1) <= Zpos p < 2 ^ k -> Zpos (digits2_pos p) = k.
Proof.
  intros [H1 H2]. pose proof (digits_pos_bounds p) as [D1 D2].
  assert (0 < k).
  { destruct (Z_lt_le_dec 0 k) as [?|Hk]; [assumption|].
    destruct (Z.eq_dec k 0) as [->|]; [cbn in H2; lia|].
    rewrite Z.pow_neg_r in H2 by lia. lia. }
  destruct (Z_lt_le_dec (Zpos (digits2_pos p)) k) as [Hlt|Hge].
  - assert (2 ^ Zpos (digits2_pos p) <= 2 ^ (k - 1)) by (apply Z.pow_le_mono_r; lia).
    lia.
  - destruct (Z.eq_dec (Zpos (digits2_pos p)) k) as [?|Hne]; [assumption|].
    assert (2 ^ k <= 2 ^ (Zpos (digits2_pos p) - 1)) by (apply Z.pow_le_mono_r; lia).
    lia.
Qed.

Lemma xI_div p : Z.pos p~1 / 2 = Z.pos p.
Proof. symmetry. apply (Z.div_unique _ 2 _ 1); lia. Qed.

Lemma xI_mod p : Z.pos p~1 mod 2 = 1.
Proof. symmetry. apply (Z.mod_unique _ 2 (Z.pos p)); lia. Qed.

Lemma xO_div p : Z.pos p~0 / 2 = Z.pos p.
Proof. symmetry. apply (Z.div_unique _ 2 _ 0); lia. Qed.

Lemma xO_mod p : Z.pos p~0 mod 2 = 0.
Proof. symmetry. apply (Z.mod_unique _ 2 (Z.pos p)); lia. Qed.

(** Where a remainder [rem] lies in a step of width [d]. *)
Definition loc_of (rem d : Z) : location :=
  if rem =? 0 then loc_Exact else loc_Inexact (2 * rem ?= d).

(** After [k] shifts of [M]: the quotient, and where the remainder lies. *)
Definition shifted (M k : Z) (r : shr_record) : Prop :=
  shr_m r = M / 2 ^ k /\ loc_of_shr_record r = loc_of (M mod 2 ^ k) (2 ^ k).

Lemma shifted_step M k r :
  0 <= M -> 0 <= k -> shifted M k r -> shifted M (k + 1) (shr_1 r).
Proof.
  intros HM Hk [Hm Hl].
  assert (Hp : 0 < 2 ^ k) by (apply Z.pow_pos_nonneg; lia).
  assert (Hq : M / 2 ^ (k + 1) = (M / 2 ^ k) / 2).
  { rewrite Z.pow_add_r, Z.pow_1_r by lia. rewrite Z.div_div by lia. reflexivity. }
  assert (Hr : M mod 2 ^ (k + 1) = M mod 2 ^ k + 2 ^ k * ((M / 2 ^ k) mod 2)).
  { rewrite Z.pow_add_r, Z.pow_1_r by lia. apply Z.rem_mul_r; lia. }
  assert (Hpk : 2 ^ (k + 1) = 2 * 2 ^ k).
  { rewrite Z.pow_add_r, Z.pow_1_r by lia. lia. }
  pose proof (Z.mod_pos_bound M (2 ^ k) Hp) as Hb.
  assert (H0 : 0 <= M / 2 ^ k) by (apply Z.div_pos; lia).
  unfold shifted. rewrite Hq, Hr, Hpk. clear Hq Hr Hpk.
  set (rem := M mod 2 ^ k) in *. set (q := M / 2 ^ k) in *. set (P := 2 ^ k) in *.
  destruct r as [m rb sb]. cbn [shr_m] in Hm. subst m.
  assert (Hs : (rb || sb = negb (rem =? 0))%bool /\
               (rb = false -> (rem =? 0) = false -> 2 * rem < P) /\
               (rb = true -> (rem =? 0) = true \/ 2 * rem >= P) /\
               (rb = true -> sb = false -> rem = 0 \/ 2 * rem = P) /\
               (rb = true -> sb = true -> 2 * rem > P)).
  { unfold loc_of in Hl. clearbody rem q P. destruct (rem =? 0) eqn:E.
    - apply Z.eqb_eq in E.
      destruct rb, sb; cbn [loc_of_shr_record] in Hl; try discriminate.
      cbn [orb negb]. repeat split; intros; try discriminate; auto.
    - apply Z.eqb_neq in E.
      destruct (2 * rem ?= P) eqn:C;
        [apply Z.compare_eq_iff in C | change (2 * rem < P) in C
        | change (2 * rem > P) in C];
        destruct rb, sb; cbn [loc_of_shr_record] in Hl; try discriminate;
        cbn [orb negb]; repeat split; intros; try discriminate;
        try reflexivity; lia. }
  destruct Hs as [Hs1 [Hs2 [Hs3 [Hs4 Hs5]]]].
  assert (Hcase : (q = 0) \/ (exists p, q = Zpos p)).
  { destruct q; [left; reflexivity | right; eexists; reflexivity | lia]. }
  unfold shr_1, loc_of.
  destruct q as [|p|p] eqn:Eq; [| | lia].
  - cbn [shr_m loc_of_shr_record]. rewrite Z.mod_0_l by lia. rewrite Z.mul_0_r, Z.add_0_r.
    split; [reflexivity|].
    rewrite Hs1. destruct (rem =? 0) eqn:E; cbn [negb].
    + reflexivity.
    + f_equal. symmetry. apply Z.compare_lt_iff. lia.
  - destruct p as [p|p|].
    + cbn [shr_m loc_of_shr_record].
      rewrite xI_div, xI_mod.
      split; [reflexivity|].
      replace (rem + P * 1 =? 0) with false by (symmetry; apply Z.eqb_neq; lia).
      rewrite Hs1. destruct (rem =? 0) eqn:E; cbn [negb].
      * apply Z.eqb_eq in E. f_equal. symmetry. apply Z.compare_eq_iff. lia.
      * apply Z.eqb_neq in E. f_equal. symmetry. apply Z.compare_gt_iff. lia.
    + cbn [shr_m loc_of_shr_record].
      rewrite xO_div, xO_mod.
      split; [reflexivity|].
      rewrite Z.mul_0_r, Z.add_0_r.
      rewrite Hs1. destruct (rem =? 0) eqn:E; cbn [negb].
      * reflexivity.
      * f_equal. symmetry. apply Z.compare_lt_iff. lia.
    + cbn [shr_m loc_of_shr_record]. change (1 mod 2) with 1. change (1 / 2) with 0.
      split; [reflexivity|].
      replace (rem + P * 1 =? 0) with false by (symmetry; apply Z.eqb_neq; lia).
      rewrite Hs1. destruct (rem =? 0) eqn:E; cbn [negb].
      * apply Z.eqb_eq in E. f_equal. symmetry. apply Z.compare_eq_iff. lia.
      * apply Z.eqb_neq in E. f_equal. symmetry. apply Z.compare_gt_iff. lia.
Qed.

Lemma shifted_iter M n :
  forall k r, 0 <= M -> 0 <= k -> shifted M k r ->
              shifted M (k + Zpos n) (iter_pos shr_1 n r).
Proof.
  induction n as [n IH|n IH|]; intros k r HM Hk Hs; cbn [iter_pos].
  - replace (k + Z.pos n~1) with (k + 1 + Z.pos n + Z.pos n) by lia.
    apply IH; [lia | lia |]. apply IH; [lia | lia |].
    apply shifted_step; assumption.
  - replace (k + Z.pos n~0) with (k + Z.pos n + Z.pos n) by lia.
    apply IH; [lia | lia |]. apply IH; assumption.
  - apply shifted_step; assumption.
Qed.

Lemma shifted_0 M : shifted M 0 (Build_shr_record M false false).
Proof.
  unfold shifted, loc_of. cbn [shr_m loc_of_shr_record].
  rewrite Z.pow_0_r, Z.div_1_r, Z.mod_1_r. split; reflexivity.
Qed.

(** The first step of rounding: the shift to the exponent of the format. *)
Lemma shr_fexp_spec M e :
  0 <= M ->
  let n := Z.max (fx (Zdigits2 M + e) - e) 0 in
  exists r, shr_fexp prec emax M e loc_Exact = (r, e + n) /\ shifted M n r.
Proof.
  intros HM n. unfold shr_fexp, shr. rewrite fexp_fx. cbn [shr_record_of_loc].
  subst n. destruct (fx (Zdigits2 M + e) - e) as [|p|p] eqn:E.
  - eexists. split; [rewrite Z.add_0_r; reflexivity | apply shifted_0].
  - eexists. split; [reflexivity |].
    rewrite Z.max_l by lia.
    apply (shifted_iter M p 0); [lia | lia | apply shifted_0].
  - eexists. split; [rewrite Z.max_r by lia; rewrite Z.add_0_r; reflexivity |].
    rewrite Z.max_r by lia. apply shifted_0.
Qed.

Lemma Zdigits_unique x k :
  0 < x -> 2 ^ (k - 1) <= x < 2 ^ k -> Zdigits2 x = k.
Proof.
  intros Hx H. destruct x as [|p|p]; try lia. apply digits_unique. exact H.
Qed.

Lemma Zdigits_le x k : 0 <= k -> 0 <= x < 2 ^ k -> Zdigits2 x <= k.
Proof.
  intros Hk [H0 H]. destruct x as [|p|p]; cbn [Zdigits2]; try lia.
  pose proof (digits_pos_bounds p) as [D1 D2].
  destruct (Z_lt_le_dec k (Zpos (digits2_pos p))) as [Hlt|]; [| assumption].
  assert (2 ^ k <= 2 ^ (Zpos (digits2_pos p) - 1)) by (apply Z.pow_le_mono_r; lia).
  lia.
Qed.

Lemma round_nearest_even_cases q rem d :
  let q' := round_nearest_even q (loc_of rem d) in
  q' = q \/ (q' = q + 1 /\ rem <> 0).
Proof.
  unfold loc_of, round_nearest_even.
  destruct (rem =? 0) eqn:E; [left; reflexivity |].
  apply Z.eqb_neq in E.
  destruct (2 * rem ?= d); [destruct (Z.even q) | |]; auto.
Qed.

(** The value [m * 2^e], scaled to an integer. *)
Definition V (m e : Z) : Z := m * 2 ^ (e + 2200).

Lemma pow_split a b : 0 <= a -> 0 <= b -> 2 ^ (a + b) = 2 ^ a * 2 ^ b.
Proof. intros. apply Z.pow_add_r; assumption. Qed.

Lemma pow_pos a : 0 <= a -> 0 < 2 ^ a.
Proof. intros. apply Z.pow_pos_nonneg; lia. Qed.

(** What [binary_round_aux] returns on an exact [m * 2^e] whose exponent is
    not above the one of the format: the quotient [q] of the shift to the
    exponent [e1] of the format, or the next integer when the shift was not
    exact, renormalised. *)
Lemma round_aux_spec s m e :
  -2200 <= e -> e <= fx (Zpos (digits2_pos m) + e) ->
  exists q e1 q2 e2,
    e1 = fx (Zpos (digits2_pos m) + e) /\
    q = Zpos m / 2 ^ (e1 - e) /\
    (2 ^ 52 <= q \/ e1 = -1074) /\
    0 <= q2 /\
    (q2 = 0 \/ fx (Zdigits2 q2 + e2) = e2) /\
    (V q2 e2 = V q e1 \/
     (V q2 e2 = V (q + 1) e1 /\ Zpos m mod 2 ^ (e1 - e) <> 0)) /\
    binary_round_aux prec emax s (Zpos m) e loc_Exact =
      match q2 with
      | Z0 => S754_zero s
      | Zpos p => if e2 <=? 971 then S754_finite s p e2 else S754_infinity s
      | Zneg _ => S754_nan
      end.
Proof.
  intros He Hn.
  set (d := Zpos (digits2_pos m)) in *.
  set (e1 := fx (d + e)) in *.
  set (n := e1 - e).
  assert (Hn0 : 0 <= n) by (unfold n; lia).
  pose proof (digits_pos_bounds m) as [D1 D2]. fold d in D1, D2.
  assert (Hd : 0 < d) by (unfold d; lia).
  assert (Hpn : 0 < 2 ^ n) by (apply pow_pos; lia).
  unfold binary_round_aux.
  destruct (shr_fexp_spec (Zpos m) e) as [r1 [E1 [S1m S1l]]]; [lia |].
  cbn [Zdigits2] in E1, S1m, S1l. fold d e1 n in E1, S1m, S1l.
  rewrite Z.max_l in E1, S1m, S1l by lia.
  rewrite E1. replace (e + n) with e1 by (unfold n; lia).
  set (q := Zpos m / 2 ^ n) in *.
  assert (Hq0 : 0 <= q) by (apply Z.div_pos; lia).
  rewrite S1m, S1l.
  pose proof (round_nearest_even_cases q (Zpos m mod 2 ^ n) (2 ^ n)) as Hr.
  cbv zeta in Hr. set (q' := round_nearest_even q _) in *.
  assert (Hq'0 : 0 <= q') by lia.
  assert (He1 : -1074 <= e1) by (unfold e1, fx; lia).
  assert (Hgrid : (2 ^ 52 <= q /\ q < 2 ^ 53 /\ e1 = d + e - 53) \/
                  (q < 2 ^ 52 /\ e1 = -1074)).
  { destruct (Z_le_gt_dec (-1074) (d + e - 53)) as [Hnorm|Hsub].
    - left. assert (e1 = d + e - 53) by (unfold e1, fx; lia).
      assert (n = d - 53) by (unfold n; lia).
      assert (P1 : 2 ^ (d - 1) = 2 ^ n * 2 ^ 52).
      { rewrite <- pow_split by lia. f_equal. lia. }
      assert (P2 : 2 ^ d = 2 ^ n * 2 ^ 53).
      { rewrite <- pow_split by lia. f_equal. lia. }
      repeat split; [| | assumption].
      + apply Z.div_le_lower_bound; lia.
      + apply Z.div_lt_upper_bound; lia.
    - right. assert (e1 = -1074) by (unfold e1, fx; lia).
      split; [| assumption].
      assert (n = -1074 - e) by (unfold n; lia).
      assert (P2 : 2 ^ d <= 2 ^ n * 2 ^ 52).
      { rewrite <- pow_split by lia. apply Z.pow_le_mono_r; lia. }
      apply Z.div_lt_upper_bound; lia. }
  destruct (shr_fexp_spec q' e1) as [r2 [E2 [S2m _]]]; [lia |].
  rewrite E2. rewrite S2m.
  change (2 ^ 52) with 4503599627370496 in *.
  change (2 ^ 53) with 9007199254740992 in *.
  destruct (Z.eq_dec q' 9007199254740992) as [Htop|Hnot].
  - (* the mantissa overflowed: one more shift *)
    assert (Hq : q = 9007199254740991) by lia.
    assert (Hnz : Zpos m mod 2 ^ n <> 0) by lia.
    assert (Hn2 : Zdigits2 q' = 54) by (rewrite Htop; reflexivity).
    assert (e1 = d + e - 53) by lia.
    rewrite Hn2.
    replace (Z.max (fx (54 + e1) - e1) 0) with 1 by (unfold fx; lia).
    rewrite Htop. change (9007199254740992 / 2 ^ 1) with 4503599627370496.
    exists q, e1, 4503599627370496, (e1 + 1).
    split; [reflexivity |]. split; [reflexivity |].
    split; [left; lia |]. split; [lia |].
    split; [right; change (Zdigits2 4503599627370496) with 53; unfold fx; lia |].
    split; [| reflexivity].
    right. split; [| exact Hnz].
    unfold V. rewrite Hq.
    replace (e1 + 1 + 2200) with (1 + (e1 + 2200)) by lia.
    rewrite pow_split by lia. change (2 ^ 1) with 2. lia.
  - assert (Hn2 : Z.max (fx (Zdigits2 q' + e1) - e1) 0 = 0).
    { destruct Hgrid as [[G1 [G2 G3]]|[G1 G2]].
      - assert (Zdigits2 q' = 53).
        { apply Zdigits_unique; [lia |].
          change (2 ^ (53 - 1)) with 4503599627370496.
          change (2 ^ 53) with 9007199254740992. lia. }
        unfold fx. lia.
      - assert (Zdigits2 q' <= 53).
        { apply Zdigits_le; [lia |].
          change (2 ^ 53) with 9007199254740992. lia. }
        unfold fx. lia. }
    rewrite Hn2. rewrite Z.pow_0_r, Z.div_1_r, Z.add_0_r.
    exists q, e1, q', e1.
    split; [reflexivity |]. split; [reflexivity |].
    split; [lia |]. split; [lia |].
    split.
    { destruct (Z.eq_dec q' 0) as [|Hne]; [left; assumption | right].
      destruct Hgrid as [[G1 [G2 G3]]|[G1 G2]].
      - assert (Zdigits2 q' = 53).
        { apply Zdigits_unique; [lia |].
          change (2 ^ (53 - 1)) with 4503599627370496.
          change (2 ^ 53) with 9007199254740992. lia. }
        unfold fx. lia.
      - assert (Zdigits2 q' <= 53).
        { apply Zdigits_le; [lia |].
          change (2 ^ 53) with 9007199254740992. lia. }
        unfold fx. lia. }
    split; [| reflexivity].
    destruct Hr as [->|[-> Hnz]]; [left; reflexivity | right; split; [reflexivity | exact Hnz]].
Qed.

(** A positive mantissa and an exponent of the format. *)
Lemma bounded_facts m e :
  bounded prec emax m e = true ->
  fx (Zpos (digits2_pos m) + e) = e /\ e <= 971 /\ -1074 <= e /\
  Zpos m < 2 ^ 53 /\ (2 ^ 52 <= Zpos m \/ e = -1074).
Proof.
  unfold bounded, canonical_mantissa. rewrite fexp_fx.
  intros H. apply andb_true_iff in H. destruct H as [H1 H2].
  apply Z.eqb_eq in H1. apply Z.leb_le in H2.
  change (emax - prec) with 971 in H2.
  pose proof (digits_pos_bounds m) as [D1 D2].
  set (d := Zpos (digits2_pos m)) in *.
  assert (Hd : 0 < d) by (unfold d; lia).
  split; [assumption |]. split; [assumption |].
  split; [unfold fx in H1; lia |].
  destruct (Z.eq_dec d 53) as [E|E].
  - rewrite E in D1, D2. change (53 - 1) with 52 in D1. split; [lia | left; lia].
  - assert (d < 53 /\ e = -1074) as [Hlt He] by (unfold fx in H1; lia).
    split; [| right; assumption].
    assert (2 ^ d <= 2 ^ 53) by (apply Z.pow_le_mono_r; lia). lia.
Qed.

Lemma bounded_intro p e :
  fx (Zdigits2 (Zpos p) + e) = e -> e <= 971 -> bounded prec emax p e = true.
Proof.
  intros H1 H2. unfold bounded, canonical_mantissa. rewrite fexp_fx.
  cbn [Zdigits2] in H1. apply andb_true_iff. split.
  - apply Z.eqb_eq. exact H1.
  - apply Z.leb_le. exact H2.
Qed.

(** Two integers next to each other on the grid of exponent [e1] have no
    number of the format strictly between them. *)
Lemma grid_upper q e1 mU eU :
  0 <= q -> -1074 <= e1 -> (2 ^ 52 <= q \/ e1 = -1074) ->
  bounded prec emax mU eU = true ->
  V q e1 < V (Zpos mU) eU -> V (q + 1) e1 <= V (Zpos mU) eU.
Proof.
  intros Hq He1 Hg HU Hlt.
  destruct (bounded_facts _ _ HU) as [_ [_ [U1 [U2 U3]]]].
  change (2 ^ 53) with 9007199254740992 in *.
  change (2 ^ 52) with 4503599627370496 in *.
  unfold V in *.
  destruct (Z_le_gt_dec e1 eU) as [Hle|Hgt].
  - replace (eU + 2200) with ((eU - e1) + (e1 + 2200)) in Hlt |- * by lia.
    rewrite (pow_split (eU - e1) (e1 + 2200)) in Hlt |- * by lia.
    pose proof (pow_pos (e1 + 2200)) as HP. pose proof (pow_pos (eU - e1)) as HT.
    set (P := 2 ^ (e1 + 2200)) in *. set (T := 2 ^ (eU - e1)) in *.
    assert (q < Zpos mU * T) by nia. nia.
  - replace (e1 + 2200) with ((e1 - eU - 1) + (1 + (eU + 2200))) in Hlt |- * by lia.
    rewrite (pow_split (e1 - eU - 1)) in Hlt |- * by lia.
    rewrite (pow_split 1) in Hlt |- * by lia. change (2 ^ 1) with 2 in *.
    pose proof (pow_pos (eU + 2200)) as HP. pose proof (pow_pos (e1 - eU - 1)) as HT.
    set (P := 2 ^ (eU + 2200)) in *. set (T := 2 ^ (e1 - eU - 1)) in *.
    assert (4503599627370496 <= q) by lia.
    assert (0 < P) by lia. assert (1 <= T) by lia.
    assert (Zpos mU * P < 9007199254740992 * P) by nia.
    assert (4503599627370496 * (T * (2 * P)) <= q * (T * (2 * P))) by nia.
    assert (2 * P <= T * (2 * P)) by nia.
    nia.
Qed.

Lemma grid_lower q e1 mL eL :
  0 <= q -> -1074 <= e1 -> (2 ^ 52 <= q \/ e1 = -1074) ->
  bounded prec emax mL eL = true ->
  V (Zpos mL) eL < V (q + 1) e1 -> V (Zpos mL) eL <= V q e1.
Proof.
  intros Hq He1 Hg HL Hlt.
  destruct (bounded_facts _ _ HL) as [_ [_ [L1 [L2 L3]]]].
  change (2 ^ 53) with 9007199254740992 in *.
  change (2 ^ 52) with 4503599627370496 in *.
  unfold V in *.
  destruct (Z_le_gt_dec e1 eL) as [Hle|Hgt].
  - replace (eL + 2200) with ((eL - e1) + (e1 + 2200)) in Hlt |- * by lia.
    rewrite (pow_split (eL - e1) (e1 + 2200)) in Hlt |- * by lia.
    pose proof (pow_pos (e1 + 2200)) as HP. pose proof (pow_pos (eL - e1)) as HT.
    set (P := 2 ^ (e1 + 2200)) in *. set (T := 2 ^ (eL - e1)) in *.
    assert (Zpos mL * T < q + 1) by nia. nia.
  - replace (e1 + 2200) with ((e1 - eL - 1) + (1 + (eL + 2200))) in Hlt |- * by lia.
    rewrite (pow_split (e1 - eL - 1)) in Hlt |- * by lia.
    rewrite (pow_split 1) in Hlt |- * by lia. change (2 ^ 1) with 2 in *.
    pose proof (pow_pos (eL + 2200)) as HP. pose proof (pow_pos (e1 - eL - 1)) as HT.
    set (P := 2 ^ (eL + 2200)) in *. set (T := 2 ^ (e1 - eL - 1)) in *.
    assert (4503599627370496 <= q) by lia.
    assert (0 < P) by lia. assert (1 <= T) by lia.
    assert (Zpos mL * P < 9007199254740992 * P) by nia.
    assert (4503599627370496 * (T * (2 * P)) <= q * (T * (2 * P))) by nia.
    assert (2 * P <= T * (2 * P)) by nia.
    nia.
Qed.

(** Rounding keeps a number between the numbers of the format around it. *)
Lemma round_aux_core s m e :
  -2200 <= e -> e <= fx (Zpos (digits2_pos m) + e) ->
  exists q2 e2,
    0 <= q2 /\
    (q2 = 0 \/ fx (Zdigits2 q2 + e2) = e2) /\
    (forall mU eU, bounded prec emax mU eU = true ->
                   V (Zpos m) e <= V (Zpos mU) eU -> V q2 e2 <= V (Zpos mU) eU) /\
    (forall mL eL, bounded prec emax mL eL = true ->
                   V (Zpos mL) eL <= V (Zpos m) e -> V (Zpos mL) eL <= V q2 e2) /\
    binary_round_aux prec emax s (Zpos m) e loc_Exact =
      match q2 with
      | Z0 => S754_zero s
      | Zpos p => if e2 <=? 971 then S754_finite s p e2 else S754_infinity s
      | Zneg _ => S754_nan
      end.
Proof.
  intros He Hn.
  destruct (round_aux_spec s m e He Hn)
    as [q [e1 [q2 [e2 [E1 [Eq [Hg [Hq2 [Hc [Hv Hres]]]]]]]]]].
  assert (He1 : -1074 <= e1) by (rewrite E1; unfold fx; lia).
  set (n := e1 - e) in *.
  assert (Hn0 : 0 <= n) by (unfold n; lia).
  pose proof (pow_pos n Hn0) as Hpn.
  pose proof (Z.div_mod (Zpos m) (2 ^ n) ltac:(lia)) as Hdm.
  pose proof (Z.mod_pos_bound (Zpos m) (2 ^ n) Hpn) as Hmb.
  rewrite <- Eq in Hdm.
  assert (Hq0 : 0 <= q) by (rewrite Eq; apply Z.div_pos; lia).
  assert (HV : forall x, V x e1 = x * 2 ^ n * 2 ^ (e + 2200)).
  { intros x. unfold V. replace (e1 + 2200) with (n + (e + 2200)) by (unfold n; lia).
    rewrite pow_split by lia. ring. }
  pose proof (pow_pos (e + 2200) ltac:(lia)) as HP.
  assert (Hfloor : V q e1 <= V (Zpos m) e).
  { rewrite HV. unfold V. nia. }
  assert (Hceil : V (Zpos m) e < V (q + 1) e1).
  { rewrite HV. unfold V. nia. }
  assert (Hstrict : Zpos m mod 2 ^ n <> 0 -> V q e1 < V (Zpos m) e).
  { intros Hnz. rewrite HV. unfold V. nia. }
  exists q2, e2. split; [assumption |]. split; [assumption |].
  split; [| split; [| exact Hres]].
  - intros mU eU HU Hle. destruct Hv as [->|[-> Hnz]]; [lia |].
    apply grid_upper; try assumption. specialize (Hstrict Hnz). lia.
  - intros mL eL HL Hle. destruct Hv as [->|[-> Hnz]]; [| lia].
    apply grid_lower; try assumption. lia.
Qed.

Lemma V_pos p e : 0 < V (Zpos p) e \/ e + 2200 < 0.
Proof.
  destruct (Z_lt_le_dec (e + 2200) 0); [right; assumption | left].
  unfold V. pose proof (pow_pos (e + 2200)). nia.
Qed.

(** A number of the format whose value is at most that of another one has
    an exponent of the format. *)
Lemma no_overflow p e2 mU eU :
  fx (Zdigits2 (Zpos p) + e2) = e2 ->
  bounded prec emax mU eU = true ->
  V (Zpos p) e2 <= V (Zpos mU) eU -> e2 <= 971.
Proof.
  intros Hc HU Hle.
  destruct (bounded_facts _ _ HU) as [_ [U0 [U1 [U2 U3]]]].
  destruct (Z_le_gt_dec e2 971) as [|Hgt]; [assumption | exfalso].
  cbn [Zdigits2] in Hc.
  pose proof (digits_pos_bounds p) as [D1 D2].
  assert (Hd : Zpos (digits2_pos p) = 53) by (unfold fx in Hc; lia).
  rewrite Hd in D1. change (2 ^ (53 - 1)) with 4503599627370496 in D1.
  change (2 ^ 53) with 9007199254740992 in U2.
  unfold V in Hle.
  replace (e2 + 2200) with ((e2 - eU - 1) + (1 + (eU + 2200))) in Hle by lia.
  rewrite (pow_split (e2 - eU - 1)) in Hle by lia.
  rewrite (pow_split 1) in Hle by lia. change (2 ^ 1) with 2 in Hle.
  pose proof (pow_pos (eU + 2200)) as HP. pose proof (pow_pos (e2 - eU - 1)) as HT.
  set (P := 2 ^ (eU + 2200)) in *. set (T := 2 ^ (e2 - eU - 1)) in *.
  assert (0 < P) by lia. assert (1 <= T) by lia.
  assert (Zpos mU * P < 9007199254740992 * P) by nia.
  assert (4503599627370496 * (T * (2 * P)) <= Zpos p * (T * (2 * P))) by nia.
  assert (2 * P <= T * (2 * P)) by nia.
  nia.
Qed.

(** Rounding a number that is at most a number of the format. *)
Lemma round_aux_upper s m e mU eU :
  -2200 <= e -> e <= fx (Zpos (digits2_pos m) + e) ->
  bounded prec emax mU eU = true ->
  V (Zpos m) e <= V (Zpos mU) eU ->
  binary_round_aux prec emax s (Zpos m) e loc_Exact = S754_zero s \/
  exists m' e',
    binary_round_aux prec emax s (Zpos m) e loc_Exact = S754_finite s m' e' /\
    bounded prec emax m' e' = true /\
    V (Zpos m') e' <= V (Zpos mU) eU.
Proof.
  intros He Hn HU Hle.
  destruct (round_aux_core s m e He Hn) as [q2 [e2 [Hq2 [Hc [Hup [_ Hres]]]]]].
  specialize (Hup mU eU HU Hle).
  destruct q2 as [|p|p]; [left; exact Hres | right | lia].
  destruct Hc as [Hc|Hc]; [discriminate |].
  assert (He2 : e2 <= 971) by (eapply no_overflow; eassumption).
  exists p, e2. split.
  - rewrite Hres. apply Z.leb_le in He2. rewrite He2. reflexivity.
  - split; [apply bounded_intro; assumption | assumption].
Qed.

(** Rounding a number that lies between two numbers of the format. *)
Lemma round_aux_between s m e mL eL mU eU :
  -2200 <= e -> e <= fx (Zpos (digits2_pos m) + e) ->
  bounded prec emax mL eL = true ->
  bounded prec emax mU eU = true ->
  V (Zpos mL) eL <= V (Zpos m) e <= V (Zpos mU) eU ->
  exists m' e',
    binary_round_aux prec emax s (Zpos m) e loc_Exact = S754_finite s m' e' /\
    bounded prec emax m' e' = true /\
    V (Zpos mL) eL <= V (Zpos m') e' <= V (Zpos mU) eU.
Proof.
  intros He Hn HL HU [Hl Hu].
  destruct (round_aux_core s m e He Hn) as [q2 [e2 [Hq2 [Hc [Hup [Hlow Hres]]]]]].
  specialize (Hup mU eU HU Hu). specialize (Hlow mL eL HL Hl).
  destruct (bounded_facts _ _ HL) as [_ [_ [L1 _]]].
  assert (0 < V (Zpos mL) eL) by (destruct (V_pos mL eL); lia).
  destruct q2 as [|p|p]; [unfold V in Hlow at 2; lia | | lia].
  destruct Hc as [Hc|Hc]; [discriminate |].
  assert (He2 : e2 <= 971) by (eapply no_overflow; eassumption).
  exists p, e2. split.
  - rewrite Hres. apply Z.leb_le in He2. rewrite He2. reflexivity.
  - split; [apply bounded_intro; assumption | split; assumption].
Qed.

(** *** Multiplication by a number below one *)

Lemma digits_mul_lower a b :
  Zpos (digits2_pos a) + Zpos (digits2_pos b) - 1 <= Zpos (digits2_pos (a * b)).
Proof.
  pose proof (digits_pos_bounds a) as [A1 _].
  pose proof (digits_pos_bounds b) as [B1 _].
  pose proof (digits_pos_bounds (a * b)) as [_ P2].
  set (da := Zpos (digits2_pos a)) in *. set (db := Zpos (digits2_pos b)) in *.
  set (dp := Zpos (digits2_pos (a * b))) in *.
  assert (0 < da) by (unfold da; lia). assert (0 < db) by (unfold db; lia).
  assert (0 < dp) by (unfold dp; lia).
  assert (H2 : 2 ^ (da - 1 + (db - 1)) < 2 ^ dp).
  { rewrite pow_split by lia. rewrite Pos2Z.inj_mul in P2.
    pose proof (pow_pos (da - 1)). pose proof (pow_pos (db - 1)). nia. }
  apply Z.pow_lt_mono_r_iff in H2; lia.
Qed.

Lemma SF64mul_upper mC eC m e :
  bounded prec emax mC eC = true -> 2 ^ 52 <= Zpos mC ->
  bounded prec emax m e = true -> e <= 0 -> Zpos m <= 2 ^ (- e) ->
  let r := SF64mul (S754_finite false mC eC) (S754_finite false m e) in
  r = S754_zero false \/
  exists m' e',
    r = S754_finite false m' e' /\ bounded prec emax m' e' = true /\
    V (Zpos m') e' <= V (Zpos mC) eC.
Proof.
  intros HC HCn Hm He Hle r. subst r.
  destruct (bounded_facts _ _ HC) as [C0 [C1 [C2 [C3 C4]]]].
  destruct (bounded_facts _ _ Hm) as [M0 [M1 [M2 [M3 M4]]]].
  unfold SF64mul, SFmul. cbn [xorb].
  apply round_aux_upper; [lia | | assumption |].
  - pose proof (digits_mul_lower mC m) as Hd.
    pose proof (digits_pos_bounds mC) as [D1 D2].
    assert (HdC : Zpos (digits2_pos mC) = 53).
    { apply digits_unique. change (53 - 1) with 52. lia. }
    assert (0 < Zpos (digits2_pos m)) by lia.
    unfold fx. lia.
  - unfold V. rewrite Pos2Z.inj_mul.
    replace (eC + 2200) with (- e + (eC + e + 2200)) by lia.
    rewrite (pow_split (- e)) by lia.
    pose proof (pow_pos (eC + e + 2200)) as HP. pose proof (pow_pos (- e)) as HT.
    set (P := 2 ^ (eC + e + 2200)) in *. set (T := 2 ^ (- e)) in *.
    assert (0 < P) by lia. nia.
Qed.

(** A float in the interval from 0 (included) to 1 (excluded). *)
Definition unit_interval (u : float) : Prop :=
  (0 <=? u)%float = true /\ (u <? 1)%float = true.

Lemma Prim2SF_zero : Prim2SF 0 = S754_zero false.
Proof. vm_compute. reflexivity. Qed.

Lemma Prim2SF_one : Prim2SF 1 = S754_finite false 4503599627370496 (-52).
Proof. vm_compute. reflexivity. Qed.

Lemma SFltb_finite_pos m1 e1 m2 e2 :
  SFltb (S754_finite false m1 e1) (S754_finite false m2 e2) = true ->
  e1 < e2 \/ (e1 = e2 /\ Zpos m1 < Zpos m2).
Proof.
  unfold SFltb, SFcompare. intros H.
  destruct (e1 ?= e2) eqn:Ec; try discriminate.
  - apply Z.compare_eq_iff in Ec. right. split; [assumption |].
    rewrite Pos.compare_cont_spec in H. unfold Pos.switch_Eq in H.
    destruct (m1 ?= m2)%positive eqn:Em; try discriminate.
    apply Pos2Z.pos_lt_pos. exact Em.
  - left. exact Ec.
Qed.

Lemma below_one m e :
  SFltb (S754_finite false m e) (S754_finite false 4503599627370496 (-52)) = true ->
  bounded prec emax m e = true ->
  e <= 0 /\ Zpos m <= 2 ^ (- e).
Proof.
  intros H1 Hv.
  destruct (bounded_facts _ _ Hv) as [_ [_ [M2 [M3 _]]]].
  apply SFltb_finite_pos in H1. destruct H1 as [Ec|[Ec Em]].
  - split; [lia |].
    assert (2 ^ 53 <= 2 ^ (- e)) by (apply Z.pow_le_mono_r; lia). lia.
  - subst e. split; [lia |].
    change (2 ^ (- -52)) with 4503599627370496. lia.
Qed.

Lemma unit_interval_shape u :
  unit_interval u ->
  (exists s, Prim2SF u = S754_zero s) \/
  exists m e, Prim2SF u = S754_finite false m e /\
              bounded prec emax m e = true /\ e <= 0 /\ Zpos m <= 2 ^ (- e).
Proof.
  intros [H0 H1]. rewrite leb_spec in H0. rewrite ltb_spec in H1.
  pose proof (Prim2SF_valid u) as Hv.
  rewrite Prim2SF_zero in H0. rewrite Prim2SF_one in H1.
  destruct (Prim2SF u) as [s|s| |s m e].
  - left. exists s. reflexivity.
  - destruct s; discriminate.
  - discriminate.
  - right. destruct s; [discriminate |].
    exists m, e. split; [reflexivity |]. cbn [valid_binary] in Hv.
    split; [exact Hv |]. apply below_one; assumption.
Qed.

(** *** Addition *)

Lemma pos_iter_xO m d : Zpos (Pos.iter xO m d) = Zpos m * 2 ^ Zpos d.
Proof.
  induction d as [|d IH] using Pos.peano_ind.
  - cbn [Pos.iter]. change (2 ^ 1) with 2. lia.
  - rewrite Pos.iter_succ. rewrite Pos2Z.inj_succ, Z.pow_succ_r by lia.
    change (Zpos (Pos.iter xO m d)~0) with (2 * Zpos (Pos.iter xO m d)).
    rewrite IH. ring.
Qed.

Lemma shl_align_spec mx ex ex' :
  exists mz,
    shl_align mx ex ex' = (mz, Z.min ex ex') /\
    Zpos mz = Zpos mx * 2 ^ (ex - Z.min ex ex').
Proof.
  unfold shl_align. destruct (ex' - ex) as [|d|d] eqn:E.
  - exists mx. rewrite Z.min_l by lia. rewrite Z.sub_diag. split; [reflexivity | cbn; lia].
  - exists mx. rewrite Z.min_l by lia. rewrite Z.sub_diag. split; [reflexivity | cbn; lia].
  - exists (Pos.iter xO mx d). rewrite Z.min_r by lia. split; [reflexivity |].
    rewrite pos_iter_xO. f_equal. f_equal. lia.
Qed.

Lemma digits_shift m mz k :
  0 <= k -> Zpos mz = Zpos m * 2 ^ k ->
  Zpos (digits2_pos mz) = Zpos (digits2_pos m) + k.
Proof.
  intros Hk E. apply digits_unique. rewrite E.
  pose proof (digits_pos_bounds m) as [D1 D2].
  set (d := Zpos (digits2_pos m)) in *.
  assert (0 < d) by (unfold d; lia).
  replace (d + k - 1) with ((d - 1) + k) by lia.
  rewrite !pow_split by lia.
  pose proof (pow_pos k Hk). nia.
Qed.

Lemma V_shift m mz e k :
  0 <= k -> 0 <= e - k + 2200 -> Zpos mz = Zpos m * 2 ^ k ->
  V (Zpos mz) (e - k) = V (Zpos m) e.
Proof.
  intros Hk He E. unfold V. rewrite E.
  replace (e + 2200) with (k + (e - k + 2200)) by lia.
  rewrite (pow_split k) by lia. ring.
Qed.

(** [binary_round] first brings the exponent down to the one of the format. *)
Lemma binary_round_pre s mx ex :
  -2200 <= ex ->
  exists mz ez,
    binary_round prec emax s mx ex =
      binary_round_aux prec emax s (Zpos mz) ez loc_Exact /\
    -2200 <= ez /\
    ez <= fx (Zpos (digits2_pos mz) + ez) /\
    V (Zpos mz) ez = V (Zpos mx) ex.
Proof.
  intros He. unfold binary_round. rewrite fexp_fx.
  destruct (shl_align_spec mx ex (fx (Zpos (digits2_pos mx) + ex))) as [mz [E Hz]].
  rewrite E. set (ez := Z.min ex (fx (Zpos (digits2_pos mx) + ex))) in *.
  exists mz, ez. split; [reflexivity |].
  assert (Hk : 0 <= ex - ez) by (unfold ez; lia).
  assert (Hez : -2200 <= ez) by (unfold ez, fx; lia).
  split; [assumption |].
  pose proof (digits_shift mx mz (ex - ez) Hk Hz) as Hd.
  split.
  - rewrite Hd. replace (Zpos (digits2_pos mx) + (ex - ez) + ez)
      with (Zpos (digits2_pos mx) + ex) by lia.
    unfold ez. lia.
  - replace ez with (ex - (ex - ez)) at 1 by lia.
    apply V_shift; [assumption | lia | assumption].
Qed.

Lemma binary_round_upper s mx ex mU eU :
  -2200 <= ex ->
  bounded prec emax mU eU = true ->
  V (Zpos mx) ex <= V (Zpos mU) eU ->
  binary_round prec emax s mx ex = S754_zero s \/
  exists m' e',
    binary_round prec emax s mx ex = S754_finite s m' e' /\
    bounded prec emax m' e' = true /\
    V (Zpos m') e' <= V (Zpos mU) eU.
Proof.
  intros He HU Hle.
  destruct (binary_round_pre s mx ex He) as [mz [ez [-> [Hez [Hn HV]]]]].
  apply round_aux_upper; try assumption. rewrite HV. exact Hle.
Qed.

Lemma binary_round_between s mx ex mL eL mU eU :
  -2200 <= ex ->
  bounded prec emax mL eL = true ->
  bounded prec emax mU eU = true ->
  V (Zpos mL) eL <= V (Zpos mx) ex <= V (Zpos mU) eU ->
  exists m' e',
    binary_round prec emax s mx ex = S754_finite s m' e' /\
    bounded prec emax m' e' = true /\
    V (Zpos mL) eL <= V (Zpos m') e' <= V (Zpos mU) eU.
Proof.
  intros He HL HU Hle.
  destruct (binary_round_pre s mx ex He) as [mz [ez [-> [Hez [Hn HV]]]]].
  apply round_aux_between; try assumption. rewrite HV. exact Hle.
Qed.

(** The two mantissas of a sum, brought to the smaller exponent. *)
Lemma aligned mx ex my ey :
  -1074 <= ex -> -1074 <= ey ->
  let ez := Z.min ex ey in
  exists ax ay,
    Zpos (fst (shl_align mx ex ez)) = ax /\
    Zpos (fst (shl_align my ey ez)) = ay /\
    0 < ax /\ 0 < ay /\
    ax * 2 ^ (ez + 2200) = V (Zpos mx) ex /\
    ay * 2 ^ (ez + 2200) = V (Zpos my) ey.
Proof.
  intros Hx Hy ez.
  destruct (shl_align_spec mx ex ez) as [ax [Ex Hax]].
  destruct (shl_align_spec my ey ez) as [ay [Ey Hay]].
  rewrite Ex, Ey. cbn [fst].
  assert (Z.min ex ez = ez) by (unfold ez; lia).
  assert (Z.min ey ez = ez) by (unfold ez; lia).
  exists (Zpos ax), (Zpos ay).
  split; [reflexivity |]. split; [reflexivity |].
  split; [lia |]. split; [lia |].
  assert (Hez : -1074 <= ez) by (unfold ez; lia).
  split.
  - rewrite Hax. unfold V. replace (Z.min ex ez) with ez by lia.
    replace (ex + 2200) with ((ex - ez) + (ez + 2200)) by lia.
    rewrite (pow_split (ex - ez)) by lia. ring.
  - rewrite Hay. unfold V. replace (Z.min ey ez) with ez by lia.
    replace (ey + 2200) with ((ey - ez) + (ez + 2200)) by lia.
    rewrite (pow_split (ey - ez)) by lia. ring.
Qed.

(** A positive constant plus a number between 0 and a bound. *)
Lemma SF64add_pos mA eA m e mB eB :
  bounded prec emax mA eA = true ->
  bounded prec emax m e = true ->
  bounded prec emax mB eB = true ->
  V (Zpos mA) eA + V (Zpos m) e <= V (Zpos mB) eB ->
  exists m' e',
    SF64add (S754_finite false mA eA) (S754_finite false m e) =
      S754_finite false m' e' /\
    bounded prec emax m' e' = true /\
    V (Zpos mA) eA <= V (Zpos m') e' <= V (Zpos mB) eB.
Proof.
  intros HA Hm HB Hle.
  destruct (bounded_facts _ _ HA) as [_ [_ [A2 _]]].
  destruct (bounded_facts _ _ Hm) as [_ [_ [M2 _]]].
  unfold SF64add, SFadd.
  destruct (aligned mA eA m e A2 M2) as [ax [ay [Ex [Ey [Hax [Hay [Vx Vy]]]]]]].
  cbv zeta in Ex, Ey, Vx, Vy. set (ez := Z.min eA e) in *.
  rewrite Ex, Ey. cbn [cond_Zopp].
  assert (Hez : -1074 <= ez) by (unfold ez; lia).
  pose proof (pow_pos (ez + 2200) ltac:(lia)) as HP.
  destruct (ax + ay) as [|p|p] eqn:Es; [lia | | lia].
  cbn [binary_normalize].
  apply binary_round_between; try assumption; [lia |].
  assert (HV : V (Zpos p) ez = V (Zpos mA) eA + V (Zpos m) e).
  { unfold V at 1. rewrite <- Es, <- Vx, <- Vy. ring. }
  rewrite HV. destruct (V_pos m e); lia.
Qed.

(** A negative constant plus a number between 0 and a bound. *)
Lemma SF64add_neg mA eA m e mB eB :
  bounded prec emax mA eA = true ->
  bounded prec emax m e = true ->
  bounded prec emax mB eB = true ->
  V (Zpos m) e <= V (Zpos mA) eA + V (Zpos mB) eB ->
  let r := SF64add (S754_finite true mA eA) (S754_finite false m e) in
  (exists s, r = S754_zero s) \/
  (exists m' e', r = S754_finite true m' e' /\ bounded prec emax m' e' = true /\
                 V (Zpos m') e' <= V (Zpos mA) eA) \/
  (exists m' e', r = S754_finite false m' e' /\ bounded prec emax m' e' = true /\
                 V (Zpos m') e' <= V (Zpos mB) eB).
Proof.
  intros HA Hm HB Hle r. subst r.
  destruct (bounded_facts _ _ HA) as [_ [_ [A2 _]]].
  destruct (bounded_facts _ _ Hm) as [_ [_ [M2 _]]].
  unfold SF64add, SFadd.
  destruct (aligned mA eA m e A2 M2) as [ax [ay [Ex [Ey [Hax [Hay [Vx Vy]]]]]]].
  cbv zeta in Ex, Ey, Vx, Vy. set (ez := Z.min eA e) in *.
  rewrite Ex, Ey. cbn [cond_Zopp].
  assert (Hez : -1074 <= ez) by (unfold ez; lia).
  pose proof (pow_pos (ez + 2200) ltac:(lia)) as HP.
  destruct (- ax + ay) as [|p|p] eqn:Es; cbn [binary_normalize].
  - left. exists false. reflexivity.
  - assert (HV : V (Zpos p) ez = V (Zpos m) e - V (Zpos mA) eA).
    { unfold V at 1. rewrite <- Es, <- Vx, <- Vy. ring. }
    destruct (binary_round_upper false p ez mB eB) as [Hz|[m' [e' H]]];
      [lia | assumption | lia | |].
    + left. exists false. exact Hz.
    + right. right. exists m', e'. exact H.
  - assert (HV : V (Zpos p) ez = V (Zpos mA) eA - V (Zpos m) e).
    { unfold V at 1. replace (Zpos p) with (- (- ax + ay)) by lia.
      rewrite <- Vx, <- Vy. ring. }
    destruct (binary_round_upper true p ez mA eA) as [Hz|[m' [e' H]]];
      [lia | assumption | | |].
    + rewrite HV. destruct (V_pos m e); lia.
    + left. exists true. exact Hz.
    + right. left. exists m', e'. exact H.
Qed.

(** *** Rounding to two decimals *)

Lemma round_half_even_bounds num den :
  0 < den -> 0 <= num ->
  num / den <= round_half_even num den /\
  (round_half_even num den = num / den \/
   (round_half_even num den = num / den + 1 /\ 0 < num mod den)).
Proof.
  intros Hd Hn. unfold round_half_even.
  pose proof (Z.mod_pos_bound num den Hd) as Hb.
  destruct (2 * (num mod den) ?= den) eqn:C.
  - apply Z.compare_eq_iff in C. destruct (Z.even (num / den)).
    + split; [lia | left; reflexivity].
    + split; [lia | right; split; [reflexivity | lia]].
  - split; [lia | left; reflexivity].
  - change (2 * (num mod den) > den) in C.
    split; [lia | right; split; [reflexivity | lia]].
Qed.

(** The number of hundredths of a value between two integers. *)
Lemma hundredths_bounds m e lo hi :
  -1074 <= e -> 0 <= lo ->
  lo * 2 ^ 2200 <= V (Zpos m) e <= hi * 2 ^ 2200 ->
  100 * lo <= hundredths m e <= 100 * hi.
Proof.
  intros He Hlo [H1 H2]. unfold hundredths, V in *.
  destruct (0 <=? e) eqn:E.
  - apply Z.leb_le in E.
    rewrite (pow_split e 2200) in H1, H2 by lia.
    pose proof (pow_pos e E) as HT. pose proof (pow_pos 2200 ltac:(lia)) as HP.
    set (T := 2 ^ e) in *. set (P := 2 ^ 2200) in *.
    assert (lo <= Zpos m * T) by nia.
    assert (Zpos m * T <= hi) by nia.
    nia.
  - apply Z.leb_gt in E.
    assert (E2 : 2 ^ 2200 = 2 ^ (- e) * 2 ^ (e + 2200))
      by (rewrite <- pow_split by lia; f_equal; lia).
    rewrite E2 in H1, H2. clear E2.
    pose proof (pow_pos (- e) ltac:(lia)) as HT.
    pose proof (pow_pos (e + 2200) ltac:(lia)) as HP.
    set (T := 2 ^ (- e)) in *. set (P := 2 ^ (e + 2200)) in *.
    assert (L : lo * T <= Zpos m) by nia.
    assert (U : Zpos m <= hi * T) by nia.
    destruct (round_half_even_bounds (Zpos m * 100) T HT ltac:(lia)) as [Hge Hc].
    pose proof (Z.div_mod (Zpos m * 100) T ltac:(lia)) as Hdm.
    pose proof (Z.mod_pos_bound (Zpos m * 100) T HT) as Hmb.
    set (q := Zpos m * 100 / T) in *. set (r := (Zpos m * 100) mod T) in *.
    assert (Hq1 : 100 * lo <= q).
    { destruct (Z_le_gt_dec (100 * lo) q); [assumption | exfalso]. nia. }
    assert (Hq2 : q <= 100 * hi).
    { destruct (Z_le_gt_dec q (100 * hi)); [assumption | exfalso]. nia. }
    split; [lia |].
    destruct Hc as [->|[-> Hr]]; [assumption |].
    destruct (Z_le_gt_dec (q + 1) (100 * hi)); [assumption | exfalso]. nia.
Qed.

Definition between (a b x : float) : Prop :=
  (a <=? x)%float = true /\ (x <=? b)%float = true.

(** The float nearest to a whole number of hundredths. *)
Definition two_decimals (x : float) : Prop :=
  exists s n, 0 <= n /\ x = SF2Prim (of_hundredths s n).

Definition in_range (a b x : float) : bool :=
  ((a <=? x) && (x <=? b))%float.

(** All the floats of sign [s] nearest to [n/100], for [steps] values of
    [n] from [lo] on, lie between [a] and [b]. *)
Fixpoint all_hundredths (s : bool) (a b : float) (lo : Z) (steps : nat) : bool :=
  match steps with
  | O => true
  | S k => in_range a b (SF2Prim (of_hundredths s lo)) &&
           all_hundredths s a b (lo + 1) k
  end.

Lemma all_hundredths_spec s a b steps :
  forall lo n,
    all_hundredths s a b lo steps = true ->
    lo <= n < lo + Z.of_nat steps ->
    between a b (SF2Prim (of_hundredths s n)).
Proof.
  induction steps as [|k IH]; intros lo n H Hn.
  - lia.
  - cbn [all_hundredths] in H. apply andb_true_iff in H. destruct H as [H0 Hk].
    destruct (Z.eq_dec n lo) as [->|Hne].
    + unfold in_range in H0. apply andb_true_iff in H0. exact H0.
    + apply (IH (lo + 1)); [assumption | lia].
Qed.

Lemma round2_finite x s m e lo hi a b steps :
  Prim2SF x = S754_finite s m e ->
  bounded prec emax m e = true ->
  0 <= lo ->
  lo * 2 ^ 2200 <= V (Zpos m) e <= hi * 2 ^ 2200 ->
  all_hundredths s a b (100 * lo) steps = true ->
  100 * hi < 100 * lo + Z.of_nat steps ->
  between a b (round2 x) /\ two_decimals (round2 x).
Proof.
  intros Hx Hb Hlo HV Hall Hc.
  destruct (bounded_facts _ _ Hb) as [_ [_ [E2 _]]].
  pose proof (hundredths_bounds m e lo hi E2 Hlo HV) as Hn.
  unfold round2. rewrite Hx. split.
  - apply (all_hundredths_spec s a b steps (100 * lo)); [assumption | lia].
  - exists s, (hundredths m e). split; [lia | reflexivity].
Qed.

Lemma round2_zero x s a b steps :
  Prim2SF x = S754_zero s ->
  all_hundredths s a b 0 (S steps) = true ->
  between a b (round2 x) /\ two_decimals (round2 x).
Proof.
  intros Hx Hall.
  assert (E : round2 x = SF2Prim (of_hundredths s 0)).
  { unfold round2. rewrite Hx. cbn [of_hundredths].
    rewrite <- Hx. symmetry. apply SF2Prim_Prim2SF. }
  rewrite E. split.
  - apply (all_hundredths_spec s a b (S steps) 0); [assumption | lia].
  - exists s, 0. split; [lia | reflexivity].
Qed.

(** The product of a positive constant and a number of the unit interval. *)
Lemma product_shape C u mC eC :
  Prim2SF C = S754_finite false mC eC -> 2 ^ 52 <= Zpos mC ->
  unit_interval u ->
  (exists s, Prim2SF (C * u) = S754_zero s) \/
  exists m e, Prim2SF (C * u) = S754_finite false m e /\
              bounded prec emax m e = true /\
              V (Zpos m) e <= V (Zpos mC) eC.
Proof.
  intros HC HCn Hu.
  pose proof (Prim2SF_valid C) as HvC. rewrite HC in HvC. cbn [valid_binary] in HvC.
  rewrite mul_spec, HC.
  destruct (unit_interval_shape u Hu) as [[s Hs]|[m [e [Hs [Hb [He Hle]]]]]];
    rewrite Hs.
  - left. exists s. reflexivity.
  - destruct (SF64mul_upper mC eC m e HvC HCn Hb He Hle) as [Hz|[m' [e' H]]].
    + left. exists false. exact Hz.
    + right. exists m', e'. exact H.
Qed.

(** [round(a + c * u, 2)] for a positive [a]: between [a] and [a + c]. *)
Lemma uniform_pos A C u mA eA mC eC mB eB lo hi a b steps :
  Prim2SF A = S754_finite false mA eA ->
  Prim2SF C = S754_finite false mC eC -> 2 ^ 52 <= Zpos mC ->
  bounded prec emax mB eB = true ->
  0 <= lo ->
  V (Zpos mA) eA = lo * 2 ^ 2200 ->
  V (Zpos mB) eB = hi * 2 ^ 2200 ->
  V (Zpos mA) eA + V (Zpos mC) eC <= V (Zpos mB) eB ->
  all_hundredths false a b (100 * lo) steps = true ->
  100 * hi < 100 * lo + Z.of_nat steps ->
  unit_interval u ->
  between a b (round2 (A + C * u)) /\ two_decimals (round2 (A + C * u)).
Proof.
  intros HA HC HCn HB Hlo VA VB Hsum Hall Hsteps Hu.
  pose proof (Prim2SF_valid A) as HvA. rewrite HA in HvA. cbn [valid_binary] in HvA.
  pose proof (Prim2SF_valid C) as HvC. rewrite HC in HvC. cbn [valid_binary] in HvC.
  destruct (bounded_facts _ _ HvC) as [_ [_ [C2 _]]].
  assert (HVC : 0 < V (Zpos mC) eC) by (destruct (V_pos mC eC); lia).
  destruct (product_shape C u mC eC HC HCn Hu) as [[s Hy]|[m [e [Hy [Hb Hle]]]]].
  - apply (round2_finite _ false mA eA lo hi a b steps); try assumption; [| lia].
    rewrite add_spec, HA, Hy. reflexivity.
  - destruct (SF64add_pos mA eA m e mB eB HvA Hb HB ltac:(lia))
      as [m' [e' [Hr [Hb' Hv']]]].
    apply (round2_finite _ false m' e' lo hi a b steps); try assumption; [| lia].
    rewrite add_spec, HA, Hy. exact Hr.
Qed.

(** [round(a + c * u, 2)] for a negative [a] with [-a < c]: between [a] and
    [a + c]. *)
Lemma uniform_neg A C u mA eA mC eC mB eB lo hi a b cn cp :
  Prim2SF A = S754_finite true mA eA ->
  Prim2SF C = S754_finite false mC eC -> 2 ^ 52 <= Zpos mC ->
  bounded prec emax mB eB = true ->
  V (Zpos mA) eA = lo * 2 ^ 2200 ->
  V (Zpos mB) eB = hi * 2 ^ 2200 ->
  V (Zpos mC) eC <= V (Zpos mA) eA + V (Zpos mB) eB ->
  all_hundredths true a b 0 (S cn) = true -> 100 * lo < Z.of_nat (S cn) ->
  all_hundredths false a b 0 (S cp) = true -> 100 * hi < Z.of_nat (S cp) ->
  unit_interval u ->
  between a b (round2 (A + C * u)) /\ two_decimals (round2 (A + C * u)).
Proof.
  intros HA HC HCn HB VA VB Hsum Hn Hcn Hp Hcp Hu.
  pose proof (Prim2SF_valid A) as HvA. rewrite HA in HvA. cbn [valid_binary] in HvA.
  destruct (bounded_facts _ _ HvA) as [_ [_ [A2 _]]].
  destruct (bounded_facts _ _ HB) as [_ [_ [B2 _]]].
  assert (HVA : 0 < V (Zpos mA) eA) by (destruct (V_pos mA eA); lia).
  assert (HVB : 0 < V (Zpos mB) eB) by (destruct (V_pos mB eB); lia).
  destruct (product_shape C u mC eC HC HCn Hu) as [[s Hy]|[m [e [Hy [Hb Hle]]]]].
  - apply (round2_finite _ true mA eA 0 lo a b (S cn)); try assumption; try lia.
    rewrite add_spec, HA, Hy. reflexivity.
  - destruct (SF64add_neg mA eA m e mB eB HvA Hb HB ltac:(lia))
      as [[s Hr]|[[m' [e' [Hr [Hb' Hv']]]]|[m' [e' [Hr [Hb' Hv']]]]]].
    + apply (round2_zero _ s a b (match s with true => cn | false => cp end)).
      * rewrite add_spec, HA, Hy. exact Hr.
      * destruct s; assumption.
    + assert (0 < V (Zpos m') e').
      { destruct (bounded_facts _ _ Hb') as [_ [_ [E2 _]]].
        destruct (V_pos m' e'); lia. }
      apply (round2_finite _ true m' e' 0 lo a b (S cn)); try assumption; try lia.
      rewrite add_spec, HA, Hy. exact Hr.
    + assert (0 < V (Zpos m') e').
      { destruct (bounded_facts _ _ Hb') as [_ [_ [E2 _]]].
        destruct (V_pos m' e'); lia. }
      apply (round2_finite _ false m' e' 0 hi a b (S cp)); try assumption; try lia.
      rewrite add_spec, HA, Hy. exact Hr.
Qed.

(** [round(0 + c * u, 2)]: between 0 and [c]. *)
Lemma uniform_zero C u mC eC hi a b cp :
  Prim2SF C = S754_finite false mC eC -> 2 ^ 52 <= Zpos mC ->
  V (Zpos mC) eC = hi * 2 ^ 2200 ->
  all_hundredths false a b 0 (S cp) = true -> 100 * hi < Z.of_nat (S cp) ->
  unit_interval u ->
  between a b (round2 (0 + C * u)) /\ two_decimals (round2 (0 + C * u)).
Proof.
  intros HC HCn VC Hp Hcp Hu.
  destruct (product_shape C u mC eC HC HCn Hu) as [[s Hy]|[m [e [Hy [Hb Hle]]]]].
  - apply (round2_zero _ false a b cp); [| assumption].
    rewrite add_spec, Prim2SF_zero, Hy. destruct s; reflexivity.
  - assert (0 < V (Zpos m) e).
    { destruct (bounded_facts _ _ Hb) as [_ [_ [E2 _]]].
      destruct (V_pos m e); lia. }
    apply (round2_finite _ false m e 0 hi a b (S cp)); try assumption; try lia.
    rewrite add_spec, Prim2SF_zero, Hy. reflexivity.
Qed.

End Binary64.

(** ** The ranges of the random fields *)

Import Binary64.

Ltac by_computation :=
  first [ vm_compute; reflexivity
        | apply Z.leb_le; vm_compute; reflexivity
        | apply Z.ltb_lt; vm_compute; reflexivity ].

(** [round(random.uniform(50, 500), 2)]. *)
Lemma price_range u :
  unit_interval u ->
  between 50 500 (round2 (50 + (500 - 50) * u)) /\
  two_decimals (round2 (50 + (500 - 50) * u)).
Proof.
  apply (uniform_pos 50 (500 - 50) u
           7036874417766400 (-47) 7916483719987200 (-44)
           8796093022208000 (-44) 50 500 50 500 (Z.to_nat 45001));
    by_computation.
Qed.

(** [round(random.uniform(-5, 5), 2)]. *)
Lemma change_range u :
  unit_interval u ->
  between (-5) 5 (round2 (-5 + (5 - -5) * u)) /\
  two_decimals (round2 (-5 + (5 - -5) * u)).
Proof.
  apply (uniform_neg (-5) (5 - -5) u
           5629499534213120 (-50) 5629499534213120 (-49)
           5629499534213120 (-50) 5 5 (-5) 5 500 500);
    by_computation.
Qed.

(** [round(random.uniform(-2, 5), 2)]. *)
Lemma gdp_growth_range u :
  unit_interval u ->
  between (-2) 5 (round2 (-2 + (5 - -2) * u)) /\
  two_decimals (round2 (-2 + (5 - -2) * u)).
Proof.
  apply (uniform_neg (-2) (5 - -2) u
           4503599627370496 (-51) 7881299347898368 (-50)
           5629499534213120 (-50) 2 5 (-2) 5 200 500);
    by_computation.
Qed.

(** [round(random.uniform(3, 10), 2)]; in particular it is not negative. *)
Lemma unemployment_rate_range u :
  unit_interval u ->
  between 3 10 (round2 (3 + (10 - 3) * u)) /\
  between 0 10 (round2 (3 + (10 - 3) * u)) /\
  two_decimals (round2 (3 + (10 - 3) * u)).
Proof.
  intros Hu. split; [| split].
  - apply (uniform_pos 3 (10 - 3) u
             6755399441055744 (-51) 7881299347898368 (-50)
             5629499534213120 (-49) 3 10 3 10 (Z.to_nat 701));
      first [exact Hu | by_computation].
  - apply (uniform_pos 3 (10 - 3) u
             6755399441055744 (-51) 7881299347898368 (-50)
             5629499534213120 (-49) 3 10 0 10 (Z.to_nat 701));
      first [exact Hu | by_computation].
  - apply (uniform_pos 3 (10 - 3) u
             6755399441055744 (-51) 7881299347898368 (-50)
             5629499534213120 (-49) 3 10 3 10 (Z.to_nat 701));
      first [exact Hu | by_computation].
Qed.

(** [round(random.uniform(0, 5), 2)]. *)
Lemma inflation_rate_range u :
  unit_interval u ->
  between 0 5 (round2 (0 + (5 - 0) * u)) /\
  two_decimals (round2 (0 + (5 - 0) * u)).
Proof.
  apply (uniform_zero (5 - 0) u 5629499534213120 (-50) 5 0 5 500);
    by_computation.
Qed.

(** X1. In a world whose generator keeps the contract of [random.random()],
    a value from 0 (included) to 1 (excluded), [fetch_stock_data] returns a
    price between 50 and 500 and a change between -5 and 5, each the float
    nearest to a whole number of hundredths. *)
Theorem stock_quote_in_range w symbol st :
  (forall i, unit_interval (random w i)) ->
  exists price change,
    res (fetch_stock_data w symbol st) =
      Ok [("symbol", Str symbol); ("price", Num price); ("change", Num change)] /\
    between 50 500 price /\ two_decimals price /\
    between (-5) 5 change /\ two_decimals change.
Proof.
  intros Hw.
  destruct (price_range _ (Hw (draws st))) as [P1 P2].
  destruct (change_range _ (Hw (S (draws st)))) as [C1 C2].
  exists (round2 (50 + (500 - 50) * random w (draws st))),
         (round2 (-5 + (5 - -5) * random w (S (draws st)))).
  split; [reflexivity |].
  split; [exact P1 |]. split; [exact P2 |]. split; [exact C1 | exact C2].
Qed.

Lemma stock_quote_in_range_witness :
  (forall i, unit_interval (random w_sell i)) /\
  exists price change,
    res (fetch_stock_data w_sell "AAPL" init) =
      Ok [("symbol", Str "AAPL"); ("price", Num price); ("change", Num change)] /\
    between 50 500 price /\ two_decimals price /\
    between (-5) 5 change /\ two_decimals change.
Proof.
  assert (H : forall i, unit_interval (random w_sell i))
    by (intros i; split; reflexivity).
  split; [exact H |].
  exact (stock_quote_in_range w_sell "AAPL" init H).
Defined.

(** X2. In such a world [fetch_economic_indicators] returns a GDP growth
    between -2 and 5, an unemployment rate between 3 and 10 and an
    inflation rate between 0 and 5, each the float nearest to a whole
    number of hundredths; the last two are never negative. *)
Theorem economic_indicators_in_range w st :
  (forall i, unit_interval (random w i)) ->
  exists gdp unemployment inflation,
    res (fetch_economic_indicators w st) =
      Ok [("gdp_growth", Num gdp); ("unemployment_rate", Num unemployment);
          ("inflation_rate", Num inflation)] /\
    between (-2) 5 gdp /\ two_decimals gdp /\
    between 3 10 unemployment /\ two_decimals unemployment /\
    between 0 5 inflation /\ two_decimals inflation /\
    (0 <=? unemployment)%float = true /\ (0 <=? inflation)%float = true.
Proof.
  intros Hw.
  destruct (gdp_growth_range _ (Hw (draws st))) as [G1 G2].
  destruct (unemployment_rate_range _ (Hw (S (draws st)))) as [U1 [U0 U2]].
  destruct (inflation_rate_range _ (Hw (S (S (draws st))))) as [I1 I2].
  exists (round2 (-2 + (5 - -2) * random w (draws st))),
         (round2 (3 + (10 - 3) * random w (S (draws st)))),
         (round2 (0 + (5 - 0) * random w (S (S (draws st))))).
  split; [reflexivity |].
  split; [exact G1 |]. split; [exact G2 |].
  split; [exact U1 |]. split; [exact U2 |].
  split; [exact I1 |]. split; [exact I2 |].
  split; [exact (proj1 U0) | exact (proj1 I1)].
Qed.

Lemma economic_indicators_in_range_witness :
  (forall i, unit_interval (random w_sell i)) /\
  exists gdp unemployment inflation,
    res (fetch_economic_indicators w_sell init) =
      Ok [("gdp_growth", Num gdp); ("unemployment_rate", Num unemployment);
          ("inflation_rate", Num inflation)] /\
    between (-2) 5 gdp /\ two_decimals gdp /\
    between 3 10 unemployment /\ two_decimals unemployment /\
    between 0 5 inflation /\ two_decimals inflation /\
    (0 <=? unemployment)%float = true /\ (0 <=? inflation)%float = true.
Proof.
  assert (H : forall i, unit_interval (random w_sell i))
    by (intros i; split; reflexivity).
  split; [exact H |].
  exact (economic_indicators_in_range w_sell init H).
Defined.

(** C9. For every call, in a world whose generator keeps the contract of
    [random.random()], the random fields lie in the ranges of their
    generators and are rounded to two decimals: [fetch_stock_data] returns
    a price between 50 and 500 and a change between -5 and 5;
    [fetch_economic_indicators] returns a GDP growth between -2 and 5, an
    unemployment rate between 3 and 10 and an inflation rate between 0 and
    5; the unemployment rate and the inflation rate are never negative. *)
Theorem generated_fields_in_range w symbol st :
  (forall i, unit_interval (random w i)) ->
  (exists price change,
      res (fetch_stock_data w symbol st) =
        Ok [("symbol", Str symbol); ("price", Num price);
            ("change", Num change)] /\
      between 50 500 price /\ two_decimals price /\
      between (-5) 5 change /\ two_decimals change) /\
  (exists gdp unemployment inflation,
      res (fetch_economic_indicators w st) =
        Ok [("gdp_growth", Num gdp); ("unemployment_rate", Num unemployment);
            ("inflation_rate", Num inflation)] /\
      between (-2) 5 gdp /\ two_decimals gdp /\
      between 3 10 unemployment /\ two_decimals unemployment /\
      between 0 5 inflation /\ two_decimals inflation /\
      (0 <=? unemployment)%float = true /\ (0 <=? inflation)%float = true).
Proof.
  intros Hw. split.
  - destruct (price_range _ (Hw (draws st))) as [P1 P2].
    destruct (change_range _ (Hw (S (draws st)))) as [C1 C2].
    exists (round2 (50 + (500 - 50) * random w (draws st))),
           (round2 (-5 + (5 - -5) * random w (S (draws st)))).
    split; [reflexivity |].
    split; [exact P1 |]. split; [exact P2 |]. split; [exact C1 | exact C2].
  - destruct (gdp_growth_range _ (Hw (draws st))) as [G1 G2].
    destruct (unemployment_rate_range _ (Hw (S (draws st)))) as [U1 [U0 U2]].
    destruct (inflation_rate_range _ (Hw (S (S (draws st))))) as [I1 I2].
    exists (round2 (-2 + (5 - -2) * random w (draws st))),
           (round2 (3 + (10 - 3) * random w (S (draws st)))),
           (round2 (0 + (5 - 0) * random w (S (S (draws st))))).
    split; [reflexivity |].
    split; [exact G1 |]. split; [exact G2 |].
    split; [exact U1 |]. split; [exact U2 |].
    split; [exact I1 |]. split; [exact I2 |].
    split; [exact (proj1 U0) | exact (proj1 I1)].
Qed.

Lemma generated_fields_in_range_witness :
  (forall i, unit_interval (random w_hold i)) /\
  (exists price change,
      res (fetch_stock_data w_hold "AAPL" init) =
        Ok [("symbol", Str "AAPL"); ("price", Num price);
            ("change", Num change)] /\
      between 50 500 price /\ two_decimals price /\
      between (-5) 5 change /\ two_decimals change) /\
  (exists gdp unemployment inflation,
      res (fetch_economic_indicators w_hold init) =
        Ok [("gdp_growth", Num gdp); ("unemployment_rate", Num unemployment);
            ("inflation_rate", Num inflation)] /\
      between (-2) 5 gdp /\ two_decimals gdp /\
      between 3 10 unemployment /\ two_decimals unemployment /\
      between 0 5 inflation /\ two_decimals inflation /\
      (0 <=? unemployment)%float = true /\ (0 <=? inflation)%float = true).
Proof.
  assert (H : forall i, unit_interval (random w_hold i))
    by (intros i; split; reflexivity).
  split; [exact H |].
  exact (generated_fields_in_range w_hold "AAPL" init H).
Defined.

(** * The agent, path by path *)

(** [o] with the events [l] before its own. *)
Definition prepend {A} (l : list event) (o : outcome A) : outcome A :=
  mk_outcome (res o) (final o) (l ++ out o)%list.

Lemma prepend_nil {A} (o : outcome A) : prepend [] o = o.
Proof. destruct o; reflexivity. Qed.

Lemma prepend_prepend {A} l1 l2 (o : outcome A) :
  prepend l1 (prepend l2 o) = prepend (l1 ++ l2) o.
Proof. unfold prepend. cbn [res final out]. rewrite app_assoc. reflexivity. Qed.

Lemma bind_det {A B} (c : M A) (k : A -> M B) st a s' l :
  c st = mk_outcome (Ok a) s' l -> bind c k st = prepend l (k a s').
Proof. intros H. unfold bind. rewrite H. reflexivity. Qed.

Lemma bind_fail {A B} (c : M A) (k : A -> M B) st e s' l :
  c st = mk_outcome (Raise e) s' l -> bind c k st = mk_outcome (Raise e) s' l.
Proof. intros H. unfold bind. rewrite H. reflexivity. Qed.

(** The scores of a list of headlines, or the first exception of TextBlob,
    with the events of the calls made. *)
Fixpoint score_all (w : world) (l : list string) : result (list float) * list event :=
  match l with
  | [] => (Ok [], [])
  | h :: t =>
      match polarity w h with
      | Raise e => (Raise e, [Enter "analyze_sentiment"; Scored h (Raise e)])
      | Ok p =>
          (match fst (score_all w t) with
           | Ok ps => Ok (p :: ps)
           | Raise e => Raise e
           end,
           Enter "analyze_sentiment" :: Scored h (Ok p) :: snd (score_all w t))
      end
  end.

Lemma analyze_sentiment_eq w text st :
  analyze_sentiment w text st =
  mk_outcome (polarity w text) st
             [Enter "analyze_sentiment"; Scored text (polarity w text)].
Proof. reflexivity. Qed.

Lemma mapM_score_all w l st :
  mapM (analyze_sentiment w) l st =
  mk_outcome (fst (score_all w l)) st (snd (score_all w l)).
Proof.
  induction l as [|h t IH]; cbn [mapM score_all].
  - reflexivity.
  - unfold bind at 1. rewrite analyze_sentiment_eq. cbn [res final out].
    destruct (polarity w h) as [p|e]; cbn [fst snd].
    + unfold bind. rewrite IH. cbn [res final out].
      destruct (fst (score_all w t)); cbn [res final out ret app];
        rewrite ?app_nil_r; reflexivity.
    + reflexivity.
Qed.

Lemma score_all_length w l ps :
  fst (score_all w l) = Ok ps -> length ps = length l.
Proof.
  revert ps. induction l as [|h t IH]; cbn [score_all]; intros ps H.
  - injection H as <-. reflexivity.
  - destruct (polarity w h) as [p|e]; cbn [fst] in H; [| discriminate].
    destruct (fst (score_all w t)) as [qs|e]; [| discriminate].
    injection H as <-. cbn [length]. rewrite (IH qs eq_refl). reflexivity.
Qed.

(** What [response.choices[0].message.content.strip()] makes of an answer. *)
Definition reading (answer : result response) : result string :=
  match answer with
  | Raise e => Raise e
  | Ok r => match choices r with
            | [] => Raise IndexError
            | None :: _ => Raise AttributeError
            | Some text :: _ => Ok (strip text)
            end
  end.

(** A request and the reading of its answer, in one step. *)
Definition ask (w : world) (req : request) (st : state) : outcome string :=
  mk_outcome (reading (chat_create w (api_calls st) req))
             (mk_state (self st) (draws st) (S (api_calls st)))
             [Sent req (chat_create w (api_calls st) req)].

Lemma ask_eq w req st :
  bind (create w req) (fun response => first_content response) st = ask w req st.
Proof.
  unfold bind, create, ask, first_content, reading. cbn [res final out].
  destruct (chat_create w (api_calls st) req) as [r|e]; [| reflexivity].
  destruct (choices r) as [|[t|] l]; reflexivity.
Qed.

(** The two prompts. *)
Definition market_prompt (w : world) (symbol price change : atom)
    (sentiment : value) (gdp unemployment inflation : atom) : string :=
  nl ++ indent ++
  "Analyze the following market conditions and provide a brief market outlook:"
  ++ nl ++ indent ++
  "Stock: " ++ str_atom w symbol ++ " at $" ++ str_atom w price
    ++ " (change: " ++ str_atom w change ++ "%)"
  ++ nl ++ indent ++
  "News Sentiment: " ++ str_value w sentiment
  ++ nl ++ indent ++
  "Economic Indicators:"
  ++ nl ++ indent ++
  "- GDP Growth: " ++ str_atom w gdp ++ "%"
  ++ nl ++ indent ++
  "- Unemployment Rate: " ++ str_atom w unemployment ++ "%"
  ++ nl ++ indent ++
  "- Inflation Rate: " ++ str_atom w inflation ++ "%"
  ++ nl ++ indent.

Definition recommendation_prompt (market_outlook risk_tolerance : string) : string :=
  nl ++ indent ++
  "Based on the following market outlook and investor risk tolerance,"
  ++ nl ++ indent ++
  "provide a specific investment recommendation:"
  ++ nl ++ indent ++
  "Market Outlook: " ++ market_outlook
  ++ nl ++ indent ++
  "Investor Risk Tolerance: " ++ risk_tolerance
  ++ nl ++ indent.

Definition chat_request (prompt : string) (cap : Z) : request :=
  mk_request "gpt-4-0125-preview" [mk_message "user" prompt] cap.

Lemma generate_investment_recommendation_eq w outlook risk st :
  generate_investment_recommendation w outlook risk st =
  prepend [Enter "generate_investment_recommendation"]
          (ask w (chat_request (recommendation_prompt outlook risk) 200) st).
Proof.
  unfold generate_investment_recommendation.
  rewrite (bind_det _ _ st tt st [Enter "generate_investment_recommendation"] eq_refl).
  cbv zeta. rewrite ask_eq. reflexivity.
Qed.

Lemma subscript_found d key a st :
  lookup key d = Some a -> subscript (Dict d) key st = mk_outcome (Ok a) st [].
Proof. intros H. unfold subscript. rewrite H. reflexivity. Qed.

Lemma subscript_missing d key st :
  lookup key d = None ->
  subscript (Dict d) key st = mk_outcome (Raise (KeyError key)) st [].
Proof. intros H. unfold subscript. rewrite H. reflexivity. Qed.

Lemma analyze_market_conditions_eq w sd s ei st a1 a2 a3 a4 a5 a6 :
  lookup "symbol" sd = Some a1 -> lookup "price" sd = Some a2 ->
  lookup "change" sd = Some a3 ->
  lookup "gdp_growth" ei = Some a4 -> lookup "unemployment_rate" ei = Some a5 ->
  lookup "inflation_rate" ei = Some a6 ->
  analyze_market_conditions w (Dict sd) s (Dict ei) st =
  prepend [Enter "analyze_market_conditions"]
          (ask w (chat_request (market_prompt w a1 a2 a3 s a4 a5 a6) 150) st).
Proof.
  intros H1 H2 H3 H4 H5 H6. unfold analyze_market_conditions.
  rewrite (bind_det _ _ st tt st [Enter "analyze_market_conditions"] eq_refl).
  rewrite (bind_det _ _ st a1 st [] (subscript_found _ _ _ _ H1)), prepend_nil.
  rewrite (bind_det _ _ st a2 st [] (subscript_found _ _ _ _ H2)), prepend_nil.
  rewrite (bind_det _ _ st a3 st [] (subscript_found _ _ _ _ H3)), prepend_nil.
  rewrite (bind_det _ _ st a4 st [] (subscript_found _ _ _ _ H4)), prepend_nil.
  rewrite (bind_det _ _ st a5 st [] (subscript_found _ _ _ _ H5)), prepend_nil.
  rewrite (bind_det _ _ st a6 st [] (subscript_found _ _ _ _ H6)), prepend_nil.
  cbv zeta. rewrite ask_eq. reflexivity.
Qed.

(** The states the agent goes through. *)
Definition quote_of (w : world) (symbol : string) (st : state) : dict :=
  [("symbol", Str symbol);
   ("price", Num (round2 (50 + (500 - 50) * random w (draws st))));
   ("change", Num (round2 (-5 + (5 - -5) * random w (S (draws st)))))].

Definition indicators_of (w : world) (st : state) : dict :=
  [("gdp_growth", Num (round2 (-2 + (5 - -2) * random w (draws st))));
   ("unemployment_rate", Num (round2 (3 + (10 - 3) * random w (S (draws st)))));
   ("inflation_rate", Num (round2 (0 + (5 - 0) * random w (S (S (draws st))))))].

Definition with_quote (w : world) (symbol : string) (st : state) : state :=
  mk_state (mk_obj (Dict (quote_of w symbol st)) (news_sentiment (self st))
                   (economic_indicators (self st)))
           (S (S (draws st))) (api_calls st).

Definition with_sentiment (average : float) (st : state) : state :=
  mk_state (mk_obj (stock_data (self st)) (Atom (Num average))
                   (economic_indicators (self st)))
           (draws st) (api_calls st).

Definition with_indicators (w : world) (st : state) : state :=
  mk_state (mk_obj (stock_data (self st)) (news_sentiment (self st))
                   (Dict (indicators_of w st)))
           (S (S (S (draws st)))) (api_calls st).

Definition headlines (company : string) : list string :=
  [company ++ " announces new product line";
   company ++ " reports quarterly earnings";
   company ++ " faces regulatory scrutiny"].

Lemma fetch_stock_data_eq w symbol st :
  fetch_stock_data w symbol st =
  mk_outcome (Ok (quote_of w symbol st))
             (mk_state (self st) (S (S (draws st))) (api_calls st))
             [Enter "fetch_stock_data"].
Proof. reflexivity. Qed.

Lemma fetch_economic_indicators_eq w st :
  fetch_economic_indicators w st =
  mk_outcome (Ok (indicators_of w st))
             (mk_state (self st) (S (S (S (draws st)))) (api_calls st))
             [Enter "fetch_economic_indicators"].
Proof. reflexivity. Qed.

(** The two requests of the agent from the state [st], reached once the
    quote, the sentiment and the indicators are in the object. *)
Definition consult (w : world) (risk : string) (st : state) : outcome string :=
  match stock_data (self st), economic_indicators (self st) with
  | Dict sd, Dict ei =>
      match lookup "symbol" sd, lookup "price" sd, lookup "change" sd,
            lookup "gdp_growth" ei, lookup "unemployment_rate" ei,
            lookup "inflation_rate" ei with
      | Some a1, Some a2, Some a3, Some a4, Some a5, Some a6 =>
          let first :=
            ask w (chat_request
                     (market_prompt w a1 a2 a3 (news_sentiment (self st)) a4 a5 a6)
                     150) st in
          match res first with
          | Raise e =>
              mk_outcome (Raise e) (final first)
                         (Enter "analyze_market_conditions" :: out first)
          | Ok outlook =>
              let second :=
                ask w (chat_request (recommendation_prompt outlook risk) 200)
                    (final first) in
              mk_outcome (res second) (final second)
                (Enter "analyze_market_conditions" :: out first ++
                 Enter "generate_investment_recommendation" :: out second)
          end
      | _, _, _, _, _, _ => mk_outcome (Raise TypeError) st []
      end
  | _, _ => mk_outcome (Raise TypeError) st []
  end.

(** The agent, as a tree of the answers of TextBlob and of the endpoint. *)
Definition agent_run (w : world) (symbol risk : string) (st : state)
  : outcome string :=
  let st1 := with_quote w symbol st in
  let start := [Enter "FinancialAdvisorAgent"; Enter "fetch_stock_data";
                Enter "fetch_news_articles"] in
  match fst (score_all w (headlines symbol)) with
  | Raise e =>
      mk_outcome (Raise e) st1 (start ++ snd (score_all w (headlines symbol)))
  | Ok scores =>
      let average := (sum scores / float_of_nat 3)%float in
      let st3 := with_indicators w (with_sentiment average st1) in
      prepend (start ++ snd (score_all w (headlines symbol)) ++
               [Enter "fetch_economic_indicators"])
              (consult w risk st3)
  end.

Lemma consult_eq w risk st sd ei a1 a2 a3 a4 a5 a6 :
  stock_data (self st) = Dict sd -> economic_indicators (self st) = Dict ei ->
  lookup "symbol" sd = Some a1 -> lookup "price" sd = Some a2 ->
  lookup "change" sd = Some a3 ->
  lookup "gdp_growth" ei = Some a4 -> lookup "unemployment_rate" ei = Some a5 ->
  lookup "inflation_rate" ei = Some a6 ->
  bind (analyze_market_conditions w (stock_data (self st))
          (news_sentiment (self st)) (economic_indicators (self st)))
       (fun market_outlook =>
          bind (generate_investment_recommendation w market_outlook risk)
               (fun recommendation => ret recommendation)) st =
  consult w risk st.
Proof.
  intros Hs He H1 H2 H3 H4 H5 H6. unfold consult.
  rewrite Hs, He, H1, H2, H3, H4, H5, H6.
  unfold bind at 1.
  rewrite (analyze_market_conditions_eq w sd _ ei st a1 a2 a3 a4 a5 a6)
    by assumption.
  cbn [prepend res final out app].
  set (first := ask w _ st).
  destruct (res first) as [outlook|e]; [| reflexivity].
  unfold bind. rewrite generate_investment_recommendation_eq.
  set (second := ask w _ (final first)).
  cbn [prepend res final out app].
  destruct (res second) as [recommendation|e]; cbn [res final out ret app];
    rewrite ?app_nil_r; reflexivity.
Qed.

Lemma emit_eq ev st : emit ev st = mk_outcome (Ok tt) st [ev].
Proof. reflexivity. Qed.

Lemma set_self_eq f st :
  set_self f st =
  mk_outcome (Ok tt) (mk_state (f (self st)) (draws st) (api_calls st)) [].
Proof. reflexivity. Qed.

Lemma get_self_eq st : get_self st = mk_outcome (Ok (self st)) st [].
Proof. reflexivity. Qed.

Lemma fetch_news_articles_eq company st :
  fetch_news_articles company st =
  mk_outcome (Ok (headlines company)) st [Enter "fetch_news_articles"].
Proof. reflexivity. Qed.

Lemma div_len_eq x n st :
  div_len x (S n) st = mk_outcome (Ok (x / float_of_nat (S n))%float) st [].
Proof. reflexivity. Qed.

(** One statement of a method's body, run by its equation [E]. *)
Tactic Notation "run_with" uconstr(E) :=
  match goal with
  | |- context [bind ?c ?k ?s] => rewrite (bind_det c k s _ _ _ E)
  end;
  rewrite ?prepend_nil, ?prepend_prepend; cbv beta;
  cbn [self draws api_calls stock_data news_sentiment economic_indicators app].

Theorem agent_run_eq w symbol risk st :
  financial_advisor_agent w symbol risk st = agent_run w symbol risk st.
Proof.
  unfold financial_advisor_agent, agent_run.
  run_with (emit_eq _ _). run_with (fetch_stock_data_eq _ _ _).
  run_with (set_self_eq _ _).
  run_with (fetch_news_articles_eq _ _).
  unfold bind at 1. rewrite mapM_score_all. cbn [res final out].
  destruct (fst (score_all w (headlines symbol))) as [scores|e] eqn:E;
    [| reflexivity].
  pose proof (score_all_length _ _ _ E) as Hlen. cbn [headlines length] in Hlen.
  rewrite Hlen.
  run_with (div_len_eq _ _ _). run_with (set_self_eq _ _).
  run_with (fetch_economic_indicators_eq _ _). run_with (set_self_eq _ _).
  run_with (get_self_eq _).
  match goal with
  | |- context [bind ?c ?k ?s] =>
      pose proof (consult_eq w risk s _ _ _ _ _ _ _ _
                    eq_refl eq_refl eq_refl eq_refl eq_refl eq_refl eq_refl
                    eq_refl) as H;
      cbn [self stock_data news_sentiment economic_indicators] in H;
      rewrite H; clear H
  end.
  unfold prepend, with_indicators, with_sentiment, with_quote.
  cbn [res final out self draws api_calls stock_data news_sentiment
       economic_indicators app].
  rewrite <- ?app_assoc. reflexivity.
Qed.

(** ** [run_analysis], path by path *)

(** The order line, or the no-action message. *)
Definition order (sym rec : string) : list event :=
  if contains "buy" (lower rec) then
    [Enter "execute_buy_order"; Print ("Executing buy order for " ++ sym)]
  else if contains "sell" (lower rec) then
    [Enter "execute_sell_order"; Print ("Executing sell order for " ++ sym)]
  else [Print no_action].

Lemma out_act sym rec st : out (act sym rec st) = order sym rec.
Proof.
  unfold act, order.
  destruct (contains "buy" (lower rec));
    [| destruct (contains "sell" (lower rec))]; reflexivity.
Qed.

Definition analysis_run (w : world) (sym risk : string) (st : state)
  : outcome unit :=
  let a := agent_run w sym risk st in
  match res a with
  | Ok rec =>
      mk_outcome (Ok tt) (final a)
                 (out a ++ report w sym rec (self (final a)) ++ order sym rec)
  | Raise e => mk_outcome (Raise e) (final a) (out a)
  end.

Theorem run_analysis_eq w sym risk st :
  run_analysis w sym risk st = analysis_run w sym risk st.
Proof.
  unfold analysis_run. rewrite <- agent_run_eq.
  destruct (res (financial_advisor_agent w sym risk st)) as [rec|e] eqn:E.
  - rewrite (run_analysis_returns _ _ _ _ _ E), out_act. reflexivity.
  - rewrite (run_analysis_raises _ _ _ _ _ E). reflexivity.
Qed.

(** The state once the quote, the average and the indicators are stored. *)
Definition analysed (w : world) (sym : string) (average : float) (st : state)
  : state :=
  with_indicators w (with_sentiment average (with_quote w sym st)).

(** [average] is [sum(scores) / len(scores)] for the three scores. *)
Definition average (scores : list float) : float :=
  (sum scores / float_of_nat 3)%float.

Definition first_request (w : world) (sym : string) (avg : float) (st : state)
  : request :=
  chat_request
    (market_prompt w (Str sym)
       (Num (round2 (50 + (500 - 50) * random w (draws st))))
       (Num (round2 (-5 + (5 - -5) * random w (S (draws st)))))
       (Atom (Num avg))
       (Num (round2 (-2 + (5 - -2) * random w (S (S (draws st))))))
       (Num (round2 (3 + (10 - 3) * random w (S (S (S (draws st)))))))
       (Num (round2 (0 + (5 - 0) * random w (S (S (S (S (draws st)))))))))
    150.

Definition second_request (outlook risk : string) : request :=
  chat_request (recommendation_prompt outlook risk) 200.

(** The state after [n] requests. *)
Definition called (n : nat) (st : state) : state :=
  mk_state (self st) (draws st) (n + api_calls st).

Definition start : list event :=
  [Enter "FinancialAdvisorAgent"; Enter "fetch_stock_data";
   Enter "fetch_news_articles"].

(** The four ways a run can go. *)
Inductive path (w : world) (sym risk : string) (st : state)
  : outcome unit -> Prop :=
  | sentiment_fails e :
      fst (score_all w (headlines sym)) = Raise e ->
      path w sym risk st
        (mk_outcome (Raise e) (with_quote w sym st)
                    (start ++ snd (score_all w (headlines sym))))
  | outlook_fails scores e :
      fst (score_all w (headlines sym)) = Ok scores ->
      let req1 := first_request w sym (average scores) st in
      reading (chat_create w (api_calls st) req1) = Raise e ->
      path w sym risk st
        (mk_outcome (Raise e) (called 1 (analysed w sym (average scores) st))
           (start ++ snd (score_all w (headlines sym)) ++
            [Enter "fetch_economic_indicators";
             Enter "analyze_market_conditions";
             Sent req1 (chat_create w (api_calls st) req1)]))
  | recommendation_fails scores outlook e :
      fst (score_all w (headlines sym)) = Ok scores ->
      let req1 := first_request w sym (average scores) st in
      let req2 := second_request outlook risk in
      reading (chat_create w (api_calls st) req1) = Ok outlook ->
      reading (chat_create w (S (api_calls st)) req2) = Raise e ->
      path w sym risk st
        (mk_outcome (Raise e) (called 2 (analysed w sym (average scores) st))
           (start ++ snd (score_all w (headlines sym)) ++
            [Enter "fetch_economic_indicators";
             Enter "analyze_market_conditions";
             Sent req1 (chat_create w (api_calls st) req1);
             Enter "generate_investment_recommendation";
             Sent req2 (chat_create w (S (api_calls st)) req2)]))
  | returns scores outlook rec :
      fst (score_all w (headlines sym)) = Ok scores ->
      let req1 := first_request w sym (average scores) st in
      let req2 := second_request outlook risk in
      reading (chat_create w (api_calls st) req1) = Ok outlook ->
      reading (chat_create w (S (api_calls st)) req2) = Ok rec ->
      path w sym risk st
        (mk_outcome (Ok tt) (called 2 (analysed w sym (average scores) st))
           (start ++ snd (score_all w (headlines sym)) ++
            [Enter "fetch_economic_indicators";
             Enter "analyze_market_conditions";
             Sent req1 (chat_create w (api_calls st) req1);
             Enter "generate_investment_recommendation";
             Sent req2 (chat_create w (S (api_calls st)) req2)] ++
            report w sym rec (self (analysed w sym (average scores) st)) ++
            order sym rec)).

Lemma run_analysis_path w sym risk st :
  path w sym risk st (run_analysis w sym risk st).
Proof.
  rewrite run_analysis_eq. unfold analysis_run, agent_run.
  destruct (fst (score_all w (headlines sym))) as [scores|e] eqn:E.
  2:{ cbn [res final out]. apply sentiment_fails. exact E. }
  fold (average scores). fold (analysed w sym (average scores) st).
  change (consult w risk (analysed w sym (average scores) st)) with
    (let first := ask w (first_request w sym (average scores) st)
                      (analysed w sym (average scores) st) in
     match res first with
     | Raise e =>
         mk_outcome (Raise e) (final first)
                    (Enter "analyze_market_conditions" :: out first)
     | Ok outlook =>
         let second := ask w (second_request outlook risk) (final first) in
         mk_outcome (res second) (final second)
           (Enter "analyze_market_conditions" :: out first ++
            Enter "generate_investment_recommendation" :: out second)
     end).
  cbv zeta. unfold ask. cbn [res final out api_calls self draws].
  change (api_calls (analysed w sym (average scores) st)) with (api_calls st).
  destruct (reading (chat_create w (api_calls st)
                       (first_request w sym (average scores) st)))
    as [outlook|e] eqn:E1.
  2:{ cbn [prepend res final out].
      refine (eq_ind _ (path w sym risk st)
                (outlook_fails w sym risk st scores e E E1) _ _).
      unfold start. rewrite <- !app_assoc. reflexivity. }
  destruct (reading (chat_create w (S (api_calls st))
                       (second_request outlook risk))) as [rec|e] eqn:E2.
  - cbn [prepend res final out].
    refine (eq_ind _ (path w sym risk st)
              (returns w sym risk st scores outlook rec E E1 E2) _ _).
    unfold start. rewrite <- !app_assoc. reflexivity.
  - cbn [prepend res final out].
    refine (eq_ind _ (path w sym risk st)
              (recommendation_fails w sym risk st scores outlook e E E1 E2) _ _).
    unfold start. rewrite <- !app_assoc. reflexivity.
Qed.

(** ** What the events count *)

Definition is_sent (ev : event) : bool :=
  match ev with Sent _ _ => true | _ => false end.

Definition is_scored (ev : event) : bool :=
  match ev with Scored _ _ => true | _ => false end.

(** The requests of a run, in the order they were sent. *)
Definition requests (l : list event) : list request :=
  flat_map (fun ev => match ev with Sent req _ => [req] | _ => [] end) l.

Lemma count_cons p ev l :
  count p (ev :: l) = (if p ev then 1 else 0) + count p l.
Proof. unfold count. cbn [filter]. destruct (p ev); reflexivity. Qed.

Lemma count_nil p : count p [] = 0.
Proof. reflexivity. Qed.

Lemma score_all_sent w l : count is_sent (snd (score_all w l)) = 0.
Proof.
  induction l as [|h t IH]; cbn [score_all]; [reflexivity |].
  destruct (polarity w h); cbn [snd]; rewrite !count_cons; cbn [is_sent];
    [exact IH | reflexivity].
Qed.

Lemma score_all_requests w l : requests (snd (score_all w l)) = [].
Proof.
  induction l as [|h t IH]; cbn [score_all]; [reflexivity |].
  destruct (polarity w h); cbn [snd requests flat_map app];
    [exact IH | reflexivity].
Qed.

Lemma score_all_scored w l :
  count is_scored (snd (score_all w l)) <= length l /\
  (forall ps, fst (score_all w l) = Ok ps ->
              count is_scored (snd (score_all w l)) = length l).
Proof.
  induction l as [|h t [IH1 IH2]]; cbn [score_all length].
  - split; [apply Nat.le_refl | reflexivity].
  - destruct (polarity w h) as [p|e]; cbn [fst snd]; rewrite !count_cons;
      cbn [is_scored Nat.add].
    + split; [lia |]. intros ps H.
      destruct (fst (score_all w t)) as [qs|e]; [| discriminate].
      rewrite (IH2 qs eq_refl). reflexivity.
    + split; [cbn; lia | discriminate].
Qed.

Lemma score_all_silent w l :
  Forall (fun ev => is_output ev = false) (snd (score_all w l)).
Proof.
  induction l as [|h t IH]; cbn [score_all]; [constructor |].
  destruct (polarity w h); cbn [snd]; repeat constructor. exact IH.
Qed.

(** TextBlob is the only thing that makes the scoring fail. *)
Lemma score_all_raise w l e :
  fst (score_all w l) = Raise e -> exists h, In h l /\ polarity w h = Raise e.
Proof.
  induction l as [|h t IH]; cbn [score_all fst]; [discriminate |].
  destruct (polarity w h) as [p|e'] eqn:E; cbn [fst].
  - destruct (fst (score_all w t)) as [qs|e'']; [discriminate |].
    intros H. injection H as <-.
    destruct (IH eq_refl) as (h' & Hin & Hp).
    exists h'. split; [right; exact Hin | exact Hp].
  - intros H. injection H as <-. exists h. split; [left; reflexivity | exact E].
Qed.

Lemma score_all_fails w l h e :
  In h l -> polarity w h = Raise e -> exists e', fst (score_all w l) = Raise e'.
Proof.
  induction l as [|h0 t IH]; [intros [] |].
  intros [->|Hin] Hp; cbn [score_all].
  - rewrite Hp. exists e. reflexivity.
  - destruct (polarity w h0) as [p|e0]; cbn [fst].
    + destruct (IH Hin Hp) as (e' & ->). exists e'. reflexivity.
    + exists e0. reflexivity.
Qed.

(** An answer that cannot be read: no choice, or a choice without content. *)
Definition unreadable (r : response) (e : exn) : Prop :=
  (choices r = [] /\ e = IndexError) \/
  (exists rest, choices r = None :: rest /\ e = AttributeError).

Lemma reading_raise answer e :
  reading answer = Raise e ->
  answer = Raise e \/ exists r, answer = Ok r /\ unreadable r e.
Proof.
  destruct answer as [r|e']; cbn [reading].
  - destruct (choices r) as [|[t|] rest] eqn:C; [| discriminate |];
      intros H; injection H as <-; right; exists r; (split; [reflexivity |]).
    + left. split; [exact C | reflexivity].
    + right. exists rest. split; [exact C | reflexivity].
  - intros H. injection H as <-. left. reflexivity.
Qed.

Lemma reading_unreadable r e : unreadable r e -> reading (Ok r) = Raise e.
Proof.
  intros [[C ->]|(rest & C & ->)]; cbn [reading]; rewrite C; reflexivity.
Qed.

(** ** Properties of a run *)

(** X3. [run_analysis] returns whenever the two services answer: when
    TextBlob gives a polarity for each of the three headlines and the
    endpoint answers every request with a first choice that has a content.
    Its own steps cannot fail: every key that [analyze_market_conditions]
    reads was written by [fetch_stock_data] or [fetch_economic_indicators],
    and the division is by the three headlines. *)
Theorem run_analysis_returns_when_services_answer w sym risk st :
  (forall h, In h (headlines sym) -> exists p, polarity w h = Ok p) ->
  (forall n req, exists text rest,
      chat_create w n req = Ok (mk_response (Some text :: rest))) ->
  res (run_analysis w sym risk st) = Ok tt.
Proof.
  intros Hp Hc.
  assert (Hr : forall n req e, reading (chat_create w n req) <> Raise e).
  { intros n req e. destruct (Hc n req) as (text & rest & ->). discriminate. }
  destruct (run_analysis_path w sym risk st); cbn [res].
  - destruct (score_all_raise _ _ _ H) as (h & Hin & Hh).
    destruct (Hp h Hin) as (p & Hq). congruence.
  - exfalso. eapply Hr. eassumption.
  - exfalso. eapply Hr. eassumption.
  - reflexivity.
Qed.

Lemma run_analysis_returns_when_services_answer_witness :
  res (run_analysis w_hold "AAPL" "moderate" init) = Ok tt.
Proof.
  apply run_analysis_returns_when_services_answer.
  - intros h _. exists 0.25%float. reflexivity.
  - intros n req. exists "Hold.", []. reflexivity.
Defined.

(** X4. A run fails only from outside. When [run_analysis] raises [e],
    either TextBlob raised [e] on one of the three headlines, or one of the
    two calls of the endpoint raised [e], or it answered with no choice
    ([e] is IndexError) or with a first choice without content ([e] is
    AttributeError). *)
Theorem failures_come_from_the_services w sym risk st e :
  res (run_analysis w sym risk st) = Raise e ->
  (exists h, In h (headlines sym) /\ polarity w h = Raise e) \/
  (exists n req,
      api_calls st <= n < api_calls st + 2 /\
      (chat_create w n req = Raise e \/
       exists r, chat_create w n req = Ok r /\ unreadable r e)).
Proof.
  destruct (run_analysis_path w sym risk st); cbn [res]; intros Hres.
  - injection Hres as <-. left. apply score_all_raise. assumption.
  - injection Hres as <-. right. exists (api_calls st), req1.
    split; [lia | apply reading_raise; assumption].
  - injection Hres as <-. right. exists (S (api_calls st)), req2.
    split; [lia | apply reading_raise; assumption].
  - discriminate.
Qed.

Lemma failures_come_from_the_services_witness :
  res (run_analysis w_api_down "AAPL" "moderate" init)
    = Raise (ApiError "rate limit") /\
  ((exists h, In h (headlines "AAPL") /\
              polarity w_api_down h = Raise (ApiError "rate limit")) \/
   (exists n req,
       api_calls init <= n < api_calls init + 2 /\
       (chat_create w_api_down n req = Raise (ApiError "rate limit") \/
        exists r, chat_create w_api_down n req = Ok r /\
                  unreadable r (ApiError "rate limit")))).
Proof.
  assert (H : res (run_analysis w_api_down "AAPL" "moderate" init)
              = Raise (ApiError "rate limit")) by (vm_compute; reflexivity).
  split; [exact H |].
  exact (failures_come_from_the_services w_api_down "AAPL" "moderate" init
           (ApiError "rate limit") H).
Defined.

Lemma report_sent w sym rec o : count is_sent (report w sym rec o) = 0.
Proof. reflexivity. Qed.

Lemma report_scored w sym rec o : count is_scored (report w sym rec o) = 0.
Proof. reflexivity. Qed.

Lemma order_sent sym rec : count is_sent (order sym rec) = 0.
Proof.
  unfold order.
  destruct (contains "buy" (lower rec));
    [| destruct (contains "sell" (lower rec))]; reflexivity.
Qed.

Lemma order_scored sym rec : count is_scored (order sym rec) = 0.
Proof.
  unfold order.
  destruct (contains "buy" (lower rec));
    [| destruct (contains "sell" (lower rec))]; reflexivity.
Qed.

(** Counting along a path: the counts of the parts add up. *)
Ltac count_path w sym :=
  unfold start;
  repeat first [rewrite count_app | rewrite count_cons | rewrite count_nil];
  cbn [is_sent is_scored];
  rewrite ?score_all_sent, ?report_sent, ?report_scored, ?order_sent,
          ?order_scored;
  pose proof (proj1 (score_all_scored w (headlines sym)));
  cbn [headlines length] in *.

(** X5. What a run costs. Every request sent is counted in the state, and
    a run sends at most two and scores at most three headlines. When
    TextBlob raises on one of the three headlines, the run has drawn
    exactly two random numbers and sent no request; when TextBlob scores
    the three headlines, the run has drawn exactly five random numbers,
    scored exactly three headlines and sent at least one request, whether
    it returns or not. A run that returns has sent exactly two requests. *)
Theorem run_analysis_cost w sym risk st :
  let o := run_analysis w sym risk st in
  api_calls (final o) = api_calls st + count is_sent (out o) /\
  count is_sent (out o) <= 2 /\
  (draws (final o) = draws st + 2 \/ draws (final o) = draws st + 5) /\
  count is_scored (out o) <= 3 /\
  (res o = Ok tt ->
   count is_sent (out o) = 2 /\ draws (final o) = draws st + 5 /\
   count is_scored (out o) = 3) /\
  ((exists h e, In h (headlines sym) /\ polarity w h = Raise e) ->
   draws (final o) = draws st + 2 /\ count is_sent (out o) = 0) /\
  ((forall h, In h (headlines sym) -> exists p, polarity w h = Ok p) ->
   draws (final o) = draws st + 5 /\ count is_scored (out o) = 3 /\
   1 <= count is_sent (out o)).
Proof.
  cbv zeta.
  assert (Hfail : forall scores,
             fst (score_all w (headlines sym)) = Ok scores ->
             (exists h e, In h (headlines sym) /\ polarity w h = Raise e) ->
             False).
  { intros scores Hs (h & e & Hin & Hp).
    destruct (score_all_fails _ _ _ _ Hin Hp) as (e' & He). congruence. }
  assert (Hok : forall e,
             fst (score_all w (headlines sym)) = Raise e ->
             (forall h, In h (headlines sym) -> exists p, polarity w h = Ok p) ->
             False).
  { intros e He Hall. destruct (score_all_raise _ _ _ He) as (h & Hin & Hp).
    destruct (Hall h Hin) as (p & Hq). congruence. }
  destruct (run_analysis_path w sym risk st);
    cbn [res final out called analysed with_indicators with_sentiment
         with_quote api_calls draws self];
    count_path w sym;
    try (pose proof (proj2 (score_all_scored w (headlines sym)) _ H) as Hs;
         cbn [headlines length] in Hs).
  - repeat split; intros; repeat split;
      first [lia | discriminate | exfalso; eapply Hok; eassumption].
  - repeat split; intros; repeat split;
      first [lia | discriminate | exfalso; eapply Hfail; eassumption].
  - repeat split; intros; repeat split;
      first [lia | discriminate | exfalso; eapply Hfail; eassumption].
  - repeat split; intros; repeat split;
      first [lia | discriminate | exfalso; eapply Hfail; eassumption].
Qed.

Lemma run_analysis_cost_witness :
  (exists h e, In h (headlines "AAPL") /\ polarity w_textblob_down h = Raise e) /\
  draws (final (run_analysis w_textblob_down "AAPL" "moderate" init))
    = draws init + 2 /\
  count is_sent (out (run_analysis w_textblob_down "AAPL" "moderate" init)) = 0.
Proof.
  assert (H : exists h e, In h (headlines "AAPL") /\
                          polarity w_textblob_down h = Raise e).
  { exists "AAPL reports quarterly earnings", (SentimentError "corpus missing").
    split; [right; left; reflexivity | reflexivity]. }
  split; [exact H |].
  exact (proj1 (proj2 (proj2 (proj2 (proj2 (proj2
           (run_analysis_cost w_textblob_down "AAPL" "moderate" init)))))) H).
Defined.

(** X6. A run that fails while scoring leaves the object half updated. When
    TextBlob raises on one of the three headlines, [run_analysis] raises;
    [self.stock_data] is then already the new quote, while
    [self.news_sentiment] and [self.economic_indicators] are what they were
    before the run, and no request has been sent. *)
Theorem sentiment_failure_leaves_old_attributes w sym risk st h e :
  In h (headlines sym) -> polarity w h = Raise e ->
  let o := run_analysis w sym risk st in
  (exists e', res o = Raise e') /\
  stock_data (self (final o)) = Dict (quote_of w sym st) /\
  news_sentiment (self (final o)) = news_sentiment (self st) /\
  economic_indicators (self (final o)) = economic_indicators (self st) /\
  api_calls (final o) = api_calls st /\
  requests (out o) = [].
Proof.
  intros Hin Hp. cbv zeta.
  destruct (score_all_fails _ _ _ _ Hin Hp) as (e' & He).
  destruct (run_analysis_path w sym risk st); try congruence.
  cbn [res final out with_quote self stock_data news_sentiment
       economic_indicators api_calls].
  repeat split; [eexists; reflexivity |].
  unfold requests. rewrite flat_map_app. fold (requests (snd (score_all w (headlines sym)))).
  rewrite score_all_requests. reflexivity.
Qed.

Lemma sentiment_failure_leaves_old_attributes_witness :
  let o := run_analysis w_textblob_down "AAPL" "moderate" init in
  (exists e', res o = Raise e') /\
  stock_data (self (final o)) = Dict (quote_of w_textblob_down "AAPL" init) /\
  news_sentiment (self (final o)) = news_sentiment (self init) /\
  economic_indicators (self (final o)) = economic_indicators (self init) /\
  api_calls (final o) = api_calls init /\
  requests (out o) = [].
Proof.
  apply (sentiment_failure_leaves_old_attributes w_textblob_down "AAPL"
           "moderate" init "AAPL reports quarterly earnings"
           (SentimentError "corpus missing")).
  - right. left. reflexivity.
  - reflexivity.
Defined.

(** X7. A run does not read what the object held before. From two states
    that differ only in the three attributes, [run_analysis] has the same
    result and the same events; and when it returns, it leaves the same
    state. *)
Theorem run_analysis_ignores_old_attributes w sym risk st st' :
  draws st = draws st' -> api_calls st = api_calls st' ->
  let o := run_analysis w sym risk st in
  let o' := run_analysis w sym risk st' in
  res o = res o' /\ out o = out o' /\ (res o = Ok tt -> final o = final o').
Proof.
  destruct st as [o1 d a], st' as [o2 d' a']. cbn [draws api_calls].
  intros <- <-. cbv zeta.
  rewrite !run_analysis_eq. unfold analysis_run, agent_run.
  destruct (fst (score_all w (headlines sym))) as [scores|e].
  - change (with_indicators w (with_sentiment (sum scores / float_of_nat 3)
              (with_quote w sym {| self := o2; draws := d; api_calls := a |})))
      with (with_indicators w (with_sentiment (sum scores / float_of_nat 3)
              (with_quote w sym {| self := o1; draws := d; api_calls := a |}))).
    repeat split; reflexivity.
  - cbn [res final out]. repeat split. discriminate.
Qed.

Lemma run_analysis_ignores_old_attributes_witness :
  let st' := mk_state (mk_obj (Atom (Num 1)) (Dict []) (Atom (Str "old"))) 0 0 in
  let o := run_analysis w_hold "AAPL" "moderate" init in
  let o' := run_analysis w_hold "AAPL" "moderate" st' in
  res o = res o' /\ out o = out o' /\ (res o = Ok tt -> final o = final o').
Proof.
  apply (run_analysis_ignores_old_attributes w_hold "AAPL" "moderate" init
           (mk_state (mk_obj (Atom (Num 1)) (Dict []) (Atom (Str "old"))) 0 0));
    reflexivity.
Defined.

(** ** [analyze_market_conditions] on its own *)

(** The keys [analyze_market_conditions] reads, in the order it reads them,
    each with the dict it is read from. *)
Definition keys_read (stock_data economic_indicators : dict)
  : list (string * dict) :=
  [("symbol", stock_data); ("price", stock_data); ("change", stock_data);
   ("gdp_growth", economic_indicators);
   ("unemployment_rate", economic_indicators);
   ("inflation_rate", economic_indicators)].

Definition is_missing (kd : string * dict) : bool :=
  match lookup (fst kd) (snd kd) with
  | Some _ => false
  | None => true
  end.

(** X8. [analyze_market_conditions] on dicts that lack a key. When one of
    the six keys it reads is missing, it raises KeyError for the first
    missing one in reading order, before any request is sent: the state is
    unchanged and the only event is the entry of the method. When no key is
    missing, exactly one request is sent. On a fresh object, whose
    attributes are empty dicts, it raises KeyError for "symbol". *)
Theorem analyze_market_conditions_missing_key w sd s ei st :
  let o := analyze_market_conditions w (Dict sd) s (Dict ei) st in
  match find is_missing (keys_read sd ei) with
  | Some (key, _) =>
      o = mk_outcome (Raise (KeyError key)) st
                     [Enter "analyze_market_conditions"]
  | None =>
      api_calls (final o) = S (api_calls st) /\ length (requests (out o)) = 1
  end /\
  analyze_market_conditions w (stock_data init_obj) (news_sentiment init_obj)
                            (economic_indicators init_obj) st =
  mk_outcome (Raise (KeyError "symbol")) st [Enter "analyze_market_conditions"].
Proof.
  cbv zeta. split; [| reflexivity].
  unfold keys_read, analyze_market_conditions.
  rewrite (bind_det _ _ st tt st [Enter "analyze_market_conditions"] eq_refl).
  cbn [find]. unfold is_missing at 1. cbn [fst snd].
  destruct (lookup "symbol" sd) as [a1|] eqn:H1.
  2:{ rewrite (bind_fail _ _ st _ st [] (subscript_missing _ _ _ H1)).
      reflexivity. }
  rewrite (bind_det _ _ st a1 st [] (subscript_found _ _ _ _ H1)), prepend_nil.
  unfold is_missing at 1. cbn [fst snd].
  destruct (lookup "price" sd) as [a2|] eqn:H2.
  2:{ rewrite (bind_fail _ _ st _ st [] (subscript_missing _ _ _ H2)).
      reflexivity. }
  rewrite (bind_det _ _ st a2 st [] (subscript_found _ _ _ _ H2)), prepend_nil.
  unfold is_missing at 1. cbn [fst snd].
  destruct (lookup "change" sd) as [a3|] eqn:H3.
  2:{ rewrite (bind_fail _ _ st _ st [] (subscript_missing _ _ _ H3)).
      reflexivity. }
  rewrite (bind_det _ _ st a3 st [] (subscript_found _ _ _ _ H3)), prepend_nil.
  unfold is_missing at 1. cbn [fst snd].
  destruct (lookup "gdp_growth" ei) as [a4|] eqn:H4.
  2:{ rewrite (bind_fail _ _ st _ st [] (subscript_missing _ _ _ H4)).
      reflexivity. }
  rewrite (bind_det _ _ st a4 st [] (subscript_found _ _ _ _ H4)), prepend_nil.
  unfold is_missing at 1. cbn [fst snd].
  destruct (lookup "unemployment_rate" ei) as [a5|] eqn:H5.
  2:{ rewrite (bind_fail _ _ st _ st [] (subscript_missing _ _ _ H5)).
      reflexivity. }
  rewrite (bind_det _ _ st a5 st [] (subscript_found _ _ _ _ H5)), prepend_nil.
  unfold is_missing at 1. cbn [fst snd].
  destruct (lookup "inflation_rate" ei) as [a6|] eqn:H6.
  2:{ rewrite (bind_fail _ _ st _ st [] (subscript_missing _ _ _ H6)).
      reflexivity. }
  rewrite (bind_det _ _ st a6 st [] (subscript_found _ _ _ _ H6)), prepend_nil.
  cbv zeta. rewrite ask_eq. split; reflexivity.
Qed.

(** ** Requests and answers of a run *)

Lemma requests_app l1 l2 :
  requests (l1 ++ l2) = (requests l1 ++ requests l2)%list.
Proof. apply flat_map_app. Qed.

Lemma requests_report w sym rec o : requests (report w sym rec o) = [].
Proof. reflexivity. Qed.

Lemma requests_order sym rec : requests (order sym rec) = [].
Proof.
  unfold order.
  destruct (contains "buy" (lower rec));
    [| destruct (contains "sell" (lower rec))]; reflexivity.
Qed.

Ltac requests_path :=
  unfold start; rewrite ?requests_app, ?score_all_requests, ?requests_report,
                        ?requests_order;
  cbn [requests flat_map app].

(** C5. Every request the system sends to the chat-completion endpoint
    names the model, carries exactly one message, of role "user", and caps
    the tokens: at 150 in [analyze_market_conditions], at 200 in
    [generate_investment_recommendation], and at one of the two in a whole
    run. The requests are sent: [generate_investment_recommendation] sends
    exactly one, whose message is its prompt, and so does
    [analyze_market_conditions] once it has read its six keys; a run sends
    none, the first or both, and both when it returns. Each of the two
    methods returns what it reads from the answer to its own request: the
    stripped content of the first choice. *)
Theorem chat_requests w sym risk outlook sd s ei st :
  Forall (requests_capped [150%Z]) (out (analyze_market_conditions w sd s ei st)) /\
  Forall (requests_capped [200%Z])
         (out (generate_investment_recommendation w outlook risk st)) /\
  Forall (requests_capped [150%Z; 200%Z]) (out (run_analysis w sym risk st)) /\
  (let req := chat_request (recommendation_prompt outlook risk) 200 in
   let answer := chat_create w (api_calls st) req in
   generate_investment_recommendation w outlook risk st =
   mk_outcome (reading answer) (called 1 st)
              [Enter "generate_investment_recommendation"; Sent req answer]) /\
  (forall d1 d2 symbol price change gdp unemployment inflation,
      sd = Dict d1 -> ei = Dict d2 ->
      lookup "symbol" d1 = Some symbol -> lookup "price" d1 = Some price ->
      lookup "change" d1 = Some change ->
      lookup "gdp_growth" d2 = Some gdp ->
      lookup "unemployment_rate" d2 = Some unemployment ->
      lookup "inflation_rate" d2 = Some inflation ->
      let req :=
        chat_request (market_prompt w symbol price change s gdp unemployment
                                    inflation) 150 in
      let answer := chat_create w (api_calls st) req in
      analyze_market_conditions w sd s ei st =
      mk_outcome (reading answer) (called 1 st)
                 [Enter "analyze_market_conditions"; Sent req answer]) /\
  (forall resp text rest,
      choices resp = Some text :: rest -> reading (Ok resp) = Ok (strip text)) /\
  (let o := run_analysis w sym risk st in
   exists prompt1 prompt2,
     (requests (out o) = [] \/
      requests (out o) = [chat_request prompt1 150] \/
      requests (out o) = [chat_request prompt1 150; chat_request prompt2 200]) /\
     (res o = Ok tt ->
      requests (out o) = [chat_request prompt1 150; chat_request prompt2 200])).
Proof.
  split; [| split; [| split; [| split; [| split; [| split]]]]].
  - revert st. change (emits (requests_capped [150%Z])
                         (analyze_market_conditions w sd s ei)).
    unfold analyze_market_conditions. capped.
  - revert st. change (emits (requests_capped [200%Z])
                         (generate_investment_recommendation w outlook risk)).
    unfold generate_investment_recommendation. capped.
  - revert st. change (emits (requests_capped [150%Z; 200%Z])
                         (run_analysis w sym risk)).
    unfold run_analysis, financial_advisor_agent, fetch_stock_data,
      fetch_news_articles, analyze_sentiment, fetch_economic_indicators,
      analyze_market_conditions, generate_investment_recommendation,
      execute_buy_order, execute_sell_order.
    capped.
  - cbv zeta. rewrite generate_investment_recommendation_eq. reflexivity.
  - intros d1 d2 symbol price change gdp unemployment inflation -> ->
           H1 H2 H3 H4 H5 H6. cbv zeta.
    rewrite (analyze_market_conditions_eq w d1 s d2 st _ _ _ _ _ _
               H1 H2 H3 H4 H5 H6).
    reflexivity.
  - intros resp text rest H. cbn [reading]. rewrite H. reflexivity.
  - cbv zeta.
    destruct (run_analysis_path w sym risk st); cbn [res out].
    + exists EmptyString, EmptyString. split; [| discriminate].
      left. requests_path. reflexivity.
    + eexists _, EmptyString. split; [| discriminate].
      right. left. requests_path. reflexivity.
    + eexists _, _. split; [| discriminate].
      right. right. requests_path. reflexivity.
    + eexists _, _. split; [right; right |]; [| intros _];
        requests_path; reflexivity.
Qed.

(** The endpoint answers "Stable." between a no-break space and an em
    space. *)
Definition w_stable : world :=
  demo_world (fun _ => Ok 0.25%float)
             (says (utf8 160 ++ "Stable." ++ utf8 8195)).

Lemma chat_requests_witness :
  let sd := [("symbol", Str "AAPL"); ("price", Num 275); ("change", Num 0)] in
  let ei := [("gdp_growth", Num 1.5); ("unemployment_rate", Num 6.5);
             ("inflation_rate", Num 2.5)] in
  let req :=
    chat_request (market_prompt w_stable (Str "AAPL") (Num 275) (Num 0)
                    (Atom (Num 0.25)) (Num 1.5) (Num 6.5) (Num 2.5)) 150 in
  analyze_market_conditions w_stable (Dict sd) (Atom (Num 0.25)) (Dict ei) init =
  mk_outcome (Ok "Stable.") (called 1 init)
             [Enter "analyze_market_conditions";
              Sent req (Ok (mk_response
                              [Some (utf8 160 ++ "Stable." ++ utf8 8195)]))].
Proof.
  exact (proj1 (proj2 (proj2 (proj2 (proj2
           (chat_requests w_stable "AAPL" "moderate" ""
              (Dict [("symbol", Str "AAPL"); ("price", Num 275);
                     ("change", Num 0)])
              (Atom (Num 0.25))
              (Dict [("gdp_growth", Num 1.5); ("unemployment_rate", Num 6.5);
                     ("inflation_rate", Num 2.5)])
              init)))))
           _ _ (Str "AAPL") (Num 275) (Num 0) (Num 1.5) (Num 6.5) (Num 2.5)
           eq_refl eq_refl eq_refl eq_refl eq_refl eq_refl eq_refl eq_refl).
Defined.

(** X9. An answer that cannot be read stops the run after the request has
    been paid for. When the three headlines are scored and the endpoint
    answers the first request with no choice, [run_analysis] raises
    IndexError; with a first choice whose content is None it raises
    AttributeError. One request has then been sent, the request for the
    recommendation never is, and nothing is printed. *)
Theorem unreadable_answer_stops_the_run w sym risk st r e :
  (forall h, In h (headlines sym) -> exists p, polarity w h = Ok p) ->
  (forall req, chat_create w (api_calls st) req = Ok r) ->
  unreadable r e ->
  let o := run_analysis w sym risk st in
  res o = Raise e /\
  api_calls (final o) = S (api_calls st) /\
  length (requests (out o)) = 1 /\
  count is_output (out o) = 0.
Proof.
  intros Hp Hc Hr. cbv zeta.
  destruct (run_analysis_path w sym risk st).
  - destruct (score_all_raise _ _ _ H) as (h & Hin & Hh).
    destruct (Hp h Hin) as (p & Hq). congruence.
  - rewrite Hc, (reading_unreadable _ _ Hr) in H0. injection H0 as <-.
    cbn [res final out called api_calls Nat.add].
    split; [reflexivity |]. split; [reflexivity |].
    split; [requests_path; reflexivity |].
    apply count_none, Forall_app. split; [repeat constructor |].
    apply Forall_app. split; [apply score_all_silent | repeat constructor].
  - rewrite Hc, (reading_unreadable _ _ Hr) in H0. discriminate.
  - rewrite Hc, (reading_unreadable _ _ Hr) in H0. discriminate.
Qed.

(** The endpoint answers without a choice. *)
Definition w_no_choice : world :=
  demo_world (fun _ => Ok 0.25%float) (fun _ _ => Ok (mk_response [])).

Lemma unreadable_answer_stops_the_run_witness :
  let o := run_analysis w_no_choice "AAPL" "moderate" init in
  res o = Raise IndexError /\
  api_calls (final o) = S (api_calls init) /\
  length (requests (out o)) = 1 /\
  count is_output (out o) = 0.
Proof.
  apply (unreadable_answer_stops_the_run w_no_choice "AAPL" "moderate" init
           (mk_response []) IndexError).
  - intros h _. exists 0.25%float. reflexivity.
  - intros req. reflexivity.
  - left. split; reflexivity.
Defined.

(** X10. How the data flows through a run that returns. The first request
    carries the symbol and the five numbers that are stored in the object
    (and printed in the report) together with the stored sentiment average;
    the second request carries what was read from the first answer and the
    risk tolerance; and the recommendation printed is what was read from the
    second answer. No other request is sent. *)
Theorem data_flow_of_a_run w sym risk st :
  let o := run_analysis w sym risk st in
  res o = Ok tt ->
  exists price change avg gdp unemployment inflation outlook rec,
    self (final o) =
      mk_obj (Dict [("symbol", Str sym); ("price", Num price);
                    ("change", Num change)])
             (Atom (Num avg))
             (Dict [("gdp_growth", Num gdp);
                    ("unemployment_rate", Num unemployment);
                    ("inflation_rate", Num inflation)]) /\
    let req1 :=
      chat_request
        (market_prompt w (Str sym) (Num price) (Num change) (Atom (Num avg))
                       (Num gdp) (Num unemployment) (Num inflation)) 150 in
    let req2 := chat_request (recommendation_prompt outlook risk) 200 in
    requests (out o) = [req1; req2] /\
    reading (chat_create w (api_calls st) req1) = Ok outlook /\
    reading (chat_create w (S (api_calls st)) req2) = Ok rec /\
    In (Print (nl ++ "Investment Recommendation:" ++ nl ++ rec)) (out o).
Proof.
  cbv zeta.
  destruct (run_analysis_path w sym risk st); cbn [res]; try discriminate.
  intros _.
  exists (round2 (50 + (500 - 50) * random w (draws st))),
         (round2 (-5 + (5 - -5) * random w (S (draws st)))),
         (average scores),
         (round2 (-2 + (5 - -2) * random w (S (S (draws st))))),
         (round2 (3 + (10 - 3) * random w (S (S (S (draws st)))))),
         (round2 (0 + (5 - 0) * random w (S (S (S (S (draws st))))))),
         outlook, rec.
  cbn [final out].
  split; [reflexivity |].
  split; [requests_path; reflexivity |].
  split; [assumption |]. split; [assumption |].
  apply in_or_app. right. apply in_or_app. right.
  apply in_or_app. right. apply in_or_app. left.
  unfold report. do 4 right. left. reflexivity.
Qed.

Lemma data_flow_of_a_run_witness :
  let o := run_analysis w_hold "AAPL" "moderate" init in
  exists price change avg gdp unemployment inflation outlook rec,
    self (final o) =
      mk_obj (Dict [("symbol", Str "AAPL"); ("price", Num price);
                    ("change", Num change)])
             (Atom (Num avg))
             (Dict [("gdp_growth", Num gdp);
                    ("unemployment_rate", Num unemployment);
                    ("inflation_rate", Num inflation)]) /\
    let req1 :=
      chat_request
        (market_prompt w_hold (Str "AAPL") (Num price) (Num change)
                       (Atom (Num avg)) (Num gdp) (Num unemployment)
                       (Num inflation)) 150 in
    let req2 := chat_request (recommendation_prompt outlook "moderate") 200 in
    requests (out o) = [req1; req2] /\
    reading (chat_create w_hold (api_calls init) req1) = Ok outlook /\
    reading (chat_create w_hold (S (api_calls init)) req2) = Ok rec /\
    In (Print (nl ++ "Investment Recommendation:" ++ nl ++ rec)) (out o).
Proof.
  apply (data_flow_of_a_run w_hold "AAPL" "moderate" init).
  vm_compute. reflexivity.
Defined.

(** ** The keyword test *)

Lemma lower_app a b : lower (a ++ b) = lower a ++ lower b.
Proof.
  induction a as [|c a IH]; cbn [lower String.append]; [reflexivity |].
  rewrite IH. reflexivity.
Qed.

Lemma starts_with_app p s : starts_with p (p ++ s) = true.
Proof.
  induction p as [|c p IH]; cbn [starts_with String.append]; [reflexivity |].
  rewrite Ascii.eqb_refl. exact IH.
Qed.

Lemma contains_eq sub s :
  contains sub s =
  if starts_with sub s then true
  else match s with
       | EmptyString => false
       | String _ t => contains sub t
       end.
Proof. destruct s; reflexivity. Qed.

(** [sub in s] holds of every string that has [sub] somewhere inside. *)
Lemma contains_app sub before after :
  contains sub (before ++ sub ++ after) = true.
Proof.
  induction before as [|c before IH]; cbn [String.append].
  - rewrite contains_eq, starts_with_app. reflexivity.
  - rewrite contains_eq.
    destruct (starts_with sub (String c (before ++ sub ++ after)));
      [reflexivity | exact IH].
Qed.

(** X11. The keyword test is a test on letters, not on words or meaning.
    Whenever the recommendation holds the letters b, u, y in a row, in any
    capitalisation and wherever they stand (inside a longer word, after a
    negation, next to "sell"), [run_analysis] places exactly one buy order
    for the symbol, places no sell order and does not print the no-action
    message. *)
Theorem buy_anywhere_places_a_buy_order w sym risk st before word after :
  res (financial_advisor_agent w sym risk st) = Ok (before ++ word ++ after) ->
  lower word = "buy" ->
  let l := out (run_analysis w sym risk st) in
  buy_orders l = 1 /\ sell_orders l = 0 /\ no_action_messages l = 0 /\
  In (Print ("Executing buy order for " ++ sym)) l.
Proof.
  intros Hrec Hword. cbv zeta.
  rewrite (run_analysis_returns _ _ _ _ _ Hrec). cbn [out].
  rewrite out_act. unfold order.
  rewrite !lower_app, Hword, contains_app.
  destruct (agent_counts w sym risk st) as (Hb & Hs & Hn).
  unfold buy_orders, sell_orders, no_action_messages in *.
  rewrite !count_app, Hb, Hs, Hn.
  repeat split.
  apply in_or_app. right. apply in_or_app. right. right. left. reflexivity.
Qed.

(** The endpoint advises against buying. *)
Definition w_do_not_buy : world :=
  demo_world (fun _ => Ok 0.25%float)
             (says "Do NOT Buy; sell the buyback rumour.").

Lemma buy_anywhere_places_a_buy_order_witness :
  let l := out (run_analysis w_do_not_buy "AAPL" "moderate" init) in
  buy_orders l = 1 /\ sell_orders l = 0 /\ no_action_messages l = 0 /\
  In (Print "Executing buy order for AAPL") l.
Proof.
  apply (buy_anywhere_places_a_buy_order w_do_not_buy "AAPL" "moderate" init
           "Do NOT " "Buy" "; sell the buyback rumour.");
    vm_compute; reflexivity.
Defined.

(** ** The text that is read from an answer *)


(** [s] without its first character, when that is white space. *)
Definition space_prefix (s : string) : option string :=
  match s with
  | EmptyString => None
  | String a t1 =>
      if is_space (String a EmptyString) then Some t1
      else
        match t1 with
        | EmptyString => None
        | String b t2 =>
            if is_space (String a (String b EmptyString)) then Some t2
            else
              match t2 with
              | EmptyString => None
              | String c t3 =>
                  if is_space (String a (String b (String c EmptyString)))
                  then Some t3
                  else None
              end
        end
  end.

Lemma lstrip_eq s :
  lstrip s = match space_prefix s with
             | Some rest => lstrip rest
             | None => s
             end.
Proof.
  destruct s as [|a t1]; cbn [lstrip space_prefix]; [reflexivity |].
  destruct (is_space (String a EmptyString)); [reflexivity |].
  destruct t1 as [|b t2]; [reflexivity |].
  destruct (is_space (String a (String b EmptyString))); [reflexivity |].
  destruct t2 as [|c t3]; [reflexivity |].
  destruct (is_space (String a (String b (String c EmptyString))));
    reflexivity.
Qed.

Lemma space_prefix_length s rest :
  space_prefix s = Some rest -> String.length rest < String.length s.
Proof.
  destruct s as [|a [|b [|c t]]]; cbn [space_prefix];
    repeat match goal with
           | |- context [if ?b then _ else _] => destruct b
           end;
    intros H; try discriminate; injection H as <-; cbn [String.length]; lia.
Qed.

Lemma space_prefix_app s rest w :
  space_prefix s = Some rest -> space_prefix (s ++ w) = Some (rest ++ w).
Proof.
  destruct s as [|a [|b [|c t]]]; cbn [space_prefix String.append];
    try discriminate.
  - destruct (is_space (String a EmptyString)); [| discriminate].
    intros H. injection H as <-. reflexivity.
  - destruct (is_space (String a EmptyString)).
    { intros H. injection H as <-. reflexivity. }
    destruct (is_space (String a (String b EmptyString))); [| discriminate].
    intros H. injection H as <-. reflexivity.
  - destruct (is_space (String a EmptyString)).
    { intros H. injection H as <-. reflexivity. }
    destruct (is_space (String a (String b EmptyString))).
    { intros H. injection H as <-. reflexivity. }
    destruct (is_space (String a (String b (String c EmptyString))));
      [| discriminate].
    intros H. injection H as <-. reflexivity.
Qed.

(** No white-space character is the beginning of another. *)
Lemma space_prefix_white_space ws rest :
  In ws white_space -> space_prefix (ws ++ rest) = Some rest.
Proof.
  unfold white_space. cbn [In]. intros H.
  repeat (destruct H as [<-|H]; [reflexivity |]). destruct H.
Qed.

Lemma all_space_white_space ws : In ws white_space -> all_space ws = true.
Proof.
  unfold white_space. cbn [In]. intros H.
  repeat (destruct H as [<-|H]; [reflexivity |]). destruct H.
Qed.

Lemma white_space_not_empty ws : In ws white_space -> ws <> EmptyString.
Proof.
  unfold white_space. cbn [In]. intros H.
  repeat (destruct H as [<-|H]; [discriminate |]). destruct H.
Qed.

(** What [lstrip] leaves does not begin with white space. *)
Lemma lstrip_done s : space_prefix (lstrip s) = None.
Proof.
  remember (String.length s) as n eqn:Hn. revert s Hn.
  induction n as [n IH] using lt_wf_ind. intros s ->.
  rewrite lstrip_eq. destruct (space_prefix s) as [rest|] eqn:E.
  - exact (IH _ (space_prefix_length _ _ E) rest eq_refl).
  - exact E.
Qed.

Lemma lstrip_app s w : all_space s = true -> lstrip (s ++ w) = lstrip w.
Proof.
  unfold all_space.
  remember (String.length s) as n eqn:Hn. revert s Hn.
  induction n as [n IH] using lt_wf_ind. intros s -> H.
  rewrite lstrip_eq in H. destruct (space_prefix s) as [rest|] eqn:E.
  - rewrite lstrip_eq, (space_prefix_app _ _ w E).
    exact (IH _ (space_prefix_length _ _ E) rest eq_refl H).
  - destruct s; [reflexivity | discriminate].
Qed.

(** What [rstrip] cuts is white space. *)
Lemma rstrip_cut s : exists w, s = rstrip s ++ w /\ all_space w = true.
Proof.
  induction s as [|c t (w & Hw & Hs)].
  - exists EmptyString. split; reflexivity.
  - cbn [rstrip]. destruct (all_space (String c t)) eqn:E.
    + exists (String c t). split; [reflexivity | exact E].
    + exists w. split; [| exact Hs]. cbn [String.append]. rewrite <- Hw.
      reflexivity.
Qed.

Lemma rstrip_rstrip s : rstrip (rstrip s) = rstrip s.
Proof.
  induction s as [|c t IH]; [reflexivity |].
  cbn [rstrip]. destruct (all_space (String c t)) eqn:E; [reflexivity |].
  cbn [rstrip]. rewrite IH.
  destruct (all_space (String c (rstrip t))) eqn:E'; [| reflexivity].
  destruct (rstrip_cut t) as (w & Hw & Hs).
  unfold all_space in E. rewrite Hw in E.
  change (String c (rstrip t ++ w)) with (String c (rstrip t) ++ w) in E.
  rewrite (lstrip_app _ w E') in E. unfold all_space in Hs.
  destruct (lstrip w); discriminate.
Qed.

(** What [rstrip] leaves does not end with white space. *)
Lemma rstrip_done s a b :
  rstrip s = s -> s = a ++ b -> b <> EmptyString -> all_space b = false.
Proof.
  revert a. induction s as [|c t IH]; intros a Hs Hab Hb.
  - destruct a, b; try discriminate. congruence.
  - cbn [rstrip] in Hs. destruct (all_space (String c t)) eqn:E;
      [discriminate |].
    injection Hs as Ht. destruct a as [|c' a]; cbn [String.append] in Hab.
    + rewrite <- Hab. exact E.
    + injection Hab as _ Hab. exact (IH a Ht Hab Hb).
Qed.

Lemma lstrip_rstrip s : space_prefix s = None -> lstrip (rstrip s) = rstrip s.
Proof.
  intros H. rewrite lstrip_eq.
  destruct (space_prefix (rstrip s)) as [rest|] eqn:E; [| reflexivity].
  destruct (rstrip_cut s) as (w & Hw & _).
  rewrite Hw, (space_prefix_app _ _ w E) in H. discriminate.
Qed.

Lemma strip_strip s : strip (strip s) = strip s.
Proof.
  unfold strip. rewrite (lstrip_rstrip _ (lstrip_done s)). apply rstrip_rstrip.
Qed.

Lemma length_append a b :
  String.length (a ++ b) = String.length a + String.length b.
Proof.
  induction a as [|c a IH]; cbn [String.append String.length];
    [reflexivity | rewrite IH; reflexivity].
Qed.

Lemma lstrip_length s : String.length (lstrip s) <= String.length s.
Proof.
  remember (String.length s) as n eqn:Hn. revert s Hn.
  induction n as [n IH] using lt_wf_ind. intros s ->.
  rewrite lstrip_eq. destruct (space_prefix s) as [r|] eqn:E;
    [| apply Nat.le_refl].
  pose proof (space_prefix_length _ _ E) as Hr.
  pose proof (IH _ Hr r eq_refl). lia.
Qed.

(** A text without white space at its beginning or at its end. *)
Definition stripped (text : string) : Prop :=
  forall ws rest, In ws white_space ->
                  text <> ws ++ rest /\ text <> rest ++ ws.

Lemma strip_stripped s : stripped (strip s).
Proof.
  intros ws rest Hin. split; intros H.
  - pose proof (lstrip_rstrip _ (lstrip_done s)) as Hl.
    fold (strip s) in Hl. rewrite lstrip_eq, H in Hl.
    rewrite (space_prefix_white_space _ rest Hin) in Hl.
    pose proof (lstrip_length rest) as Hlen.
    rewrite Hl, length_append in Hlen.
    pose proof (white_space_not_empty _ Hin) as Hne.
    destruct ws; [congruence | cbn [String.length] in Hlen; lia].
  - pose proof (rstrip_done (strip s) rest ws (rstrip_rstrip (lstrip s)) H
                  (white_space_not_empty _ Hin)) as Hd.
    rewrite (all_space_white_space _ Hin) in Hd. discriminate.
Qed.

Lemma reading_stripped answer text :
  reading answer = Ok text -> stripped text /\ strip text = text.
Proof.
  destruct answer as [r|e]; cbn [reading]; [| discriminate].
  destruct (choices r) as [|[t|] rest]; try discriminate.
  intros H. injection H as <-.
  split; [apply strip_stripped | apply strip_strip].
Qed.

(** A computation whose result, when it returns, satisfies [P]. *)
Definition yields {A} (P : A -> Prop) (c : M A) : Prop :=
  forall st a, res (c st) = Ok a -> P a.

Lemma yields_bind {A B} (P : B -> Prop) (c : M A) (k : A -> M B) :
  (forall a, yields P (k a)) -> yields P (bind c k).
Proof.
  intros Hk st b. unfold bind.
  destruct (res (c st)) as [a|e]; cbn [res]; [apply Hk | discriminate].
Qed.

Lemma yields_bind_ret {A} (P : A -> Prop) (c : M A) :
  yields P c -> yields P (bind c (fun a => ret a)).
Proof.
  intros Hc st a. unfold bind.
  destruct (res (c st)) as [a'|e] eqn:E; cbn [res ret]; [| discriminate].
  intros H. injection H as <-. exact (Hc st a' E).
Qed.

(** No white space around [text], and [strip] has nothing left to remove. *)
Definition is_stripped (text : string) : Prop :=
  stripped text /\ strip text = text.

Lemma yields_ask w req :
  yields is_stripped
         (bind (create w req) (fun response => first_content response)).
Proof. intros st text. rewrite ask_eq. apply reading_stripped. Qed.

Lemma analyze_market_conditions_stripped w sd s ei :
  yields is_stripped (analyze_market_conditions w sd s ei).
Proof.
  unfold analyze_market_conditions.
  do 7 (apply yields_bind; intros ?). cbv zeta. apply yields_ask.
Qed.

Lemma generate_investment_recommendation_stripped w outlook risk :
  yields is_stripped (generate_investment_recommendation w outlook risk).
Proof.
  unfold generate_investment_recommendation.
  apply yields_bind; intros ?. cbv zeta. apply yields_ask.
Qed.

(** X12. What the agent returns carries no white space around it. The
    market outlook of [analyze_market_conditions] and the recommendation of
    [generate_investment_recommendation], hence of
    [financial_advisor_agent], neither begin nor end with one of the
    white-space characters that [str.strip] removes, and stripping them
    again changes nothing, whatever the endpoint answered. *)
Theorem returned_texts_are_stripped w sym risk outlook sd s ei st text :
  (res (analyze_market_conditions w sd s ei st) = Ok text ->
   stripped text /\ strip text = text) /\
  (res (generate_investment_recommendation w outlook risk st) = Ok text ->
   stripped text /\ strip text = text) /\
  (res (financial_advisor_agent w sym risk st) = Ok text ->
   stripped text /\ strip text = text).
Proof.
  split; [apply analyze_market_conditions_stripped |].
  split; [apply generate_investment_recommendation_stripped |].
  revert st text.
  change (yields is_stripped (financial_advisor_agent w sym risk)).
  unfold financial_advisor_agent.
  do 11 (apply yields_bind; intros ?).
  apply yields_bind_ret, generate_investment_recommendation_stripped.
Qed.

(** The endpoint answers with a no-break space before the text and an em
    space and a line feed after it. *)
Definition w_padded : world :=
  demo_world (fun _ => Ok 0.25%float)
             (says (utf8 160 ++ " Hold." ++ utf8 8195 ++ nl)).

Lemma returned_texts_are_stripped_witness :
  res (financial_advisor_agent w_padded "AAPL" "moderate" init) = Ok "Hold." /\
  stripped "Hold." /\ strip "Hold." = "Hold.".
Proof.
  assert (H : res (financial_advisor_agent w_padded "AAPL" "moderate" init)
              = Ok "Hold.") by (vm_compute; reflexivity).
  split; [exact H |].
  exact (proj2 (proj2 (returned_texts_are_stripped w_padded "AAPL" "moderate"
                         "" (Dict []) (Dict []) (Dict []) init "Hold.")) H).
Defined.

(** ** The figures of a run *)

(** X13. The figures a run stores, prints and sends to the model lie in
    the ranges of their generators. In a world whose generator keeps the
    contract of [random.random()], after a run that returns the object
    holds a price between 50 and 500, a change between -5 and 5, a GDP
    growth between -2 and 5, an unemployment rate between 3 and 10 and an
    inflation rate between 0 and 5, each the float nearest to a whole number
    of hundredths, and the first request of the run carries these same
    five figures. *)
Theorem stored_figures_in_range w sym risk st :
  (forall i, unit_interval (random w i)) ->
  let o := run_analysis w sym risk st in
  res o = Ok tt ->
  exists price change gdp unemployment inflation,
    stock_data (self (final o)) =
      Dict [("symbol", Str sym); ("price", Num price); ("change", Num change)] /\
    economic_indicators (self (final o)) =
      Dict [("gdp_growth", Num gdp); ("unemployment_rate", Num unemployment);
            ("inflation_rate", Num inflation)] /\
    hd_error (requests (out o)) =
      Some (chat_request
              (market_prompt w (Str sym) (Num price) (Num change)
                 (news_sentiment (self (final o)))
                 (Num gdp) (Num unemployment) (Num inflation)) 150) /\
    between 50 500 price /\ two_decimals price /\
    between (-5) 5 change /\ two_decimals change /\
    between (-2) 5 gdp /\ two_decimals gdp /\
    between 3 10 unemployment /\ two_decimals unemployment /\
    between 0 5 inflation /\ two_decimals inflation.
Proof.
  intros Hw. cbv zeta.
  destruct (run_analysis_path w sym risk st); cbn [res]; try discriminate.
  intros _.
  destruct (price_range _ (Hw (draws st))) as [P1 P2].
  destruct (change_range _ (Hw (S (draws st)))) as [C1 C2].
  destruct (gdp_growth_range _ (Hw (S (S (draws st))))) as [G1 G2].
  destruct (unemployment_rate_range _ (Hw (S (S (S (draws st))))))
    as [U1 [_ U2]].
  destruct (inflation_rate_range _ (Hw (S (S (S (S (draws st)))))))
    as [I1 I2].
  exists (round2 (50 + (500 - 50) * random w (draws st))),
         (round2 (-5 + (5 - -5) * random w (S (draws st)))),
         (round2 (-2 + (5 - -2) * random w (S (S (draws st))))),
         (round2 (3 + (10 - 3) * random w (S (S (S (draws st)))))),
         (round2 (0 + (5 - 0) * random w (S (S (S (S (draws st))))))).
  cbn [final out].
  split; [reflexivity |]. split; [reflexivity |].
  split; [requests_path; reflexivity |].
  repeat split; first [apply P1 | apply P2 | apply C1 | apply C2 | apply G1
                      | apply G2 | apply U1 | apply U2 | apply I1 | apply I2].
Qed.

Lemma stored_figures_in_range_witness :
  let o := run_analysis w_hold "AAPL" "moderate" init in
  exists price change gdp unemployment inflation,
    stock_data (self (final o)) =
      Dict [("symbol", Str "AAPL"); ("price", Num price);
            ("change", Num change)] /\
    economic_indicators (self (final o)) =
      Dict [("gdp_growth", Num gdp); ("unemployment_rate", Num unemployment);
            ("inflation_rate", Num inflation)] /\
    hd_error (requests (out o)) =
      Some (chat_request
              (market_prompt w_hold (Str "AAPL") (Num price) (Num change)
                 (news_sentiment (self (final o)))
                 (Num gdp) (Num unemployment) (Num inflation)) 150) /\
    between 50 500 price /\ two_decimals price /\
    between (-5) 5 change /\ two_decimals change /\
    between (-2) 5 gdp /\ two_decimals gdp /\
    between 3 10 unemployment /\ two_decimals unemployment /\
    between 0 5 inflation /\ two_decimals inflation.
Proof.
  apply (stored_figures_in_range w_hold "AAPL" "moderate" init).
  - intros i. split; reflexivity.
  - vm_compute. reflexivity.
Defined.
